(** * EchoInfo bot: a shallow embedding of [bot.py] and its verified properties

    The development follows the layout of the source file: text primitives
    (Python [str] as a sequence of code points), the exception hierarchy and
    a small trace-and-exception monad for the awaited platform calls, then
    the field renderers, the chat-report aggregator, the error reporter, the
    private handlers and the supervisor loop of [main]. *)

From Stdlib Require Import List ZArith NArith Bool Lia String Ascii.
From Stdlib Require Import DecimalString.
Import ListNotations.

Local Open Scope Z_scope.
Local Open Scope list_scope.

(* ===================================================================== *)
(** ** Python text *)
(* ===================================================================== *)

Module PyStr.

(** A Python [str] is a sequence of Unicode code points: [len] counts code
    points and slicing cuts between them. *)
Definition pystr : Type := list N.

(** Continuation byte payload (low six bits). *)
Definition cont (c : ascii) : N := N.land (N_of_ascii c) 63.

(** Source literals are written as UTF-8 byte strings; [u] decodes them to
    code points (one, two, three and four byte forms). *)
Fixpoint u (s : string) : pystr :=
  match s with
  | EmptyString => []
  | String c r =>
      let n := N_of_ascii c in
      if (n <? 128)%N then n :: u r
      else if (n <? 224)%N then
        match r with
        | String c1 r1 => (N.land n 31 * 64 + cont c1)%N :: u r1
        | _ => []
        end
      else if (n <? 240)%N then
        match r with
        | String c1 (String c2 r2) =>
            (N.land n 15 * 4096 + cont c1 * 64 + cont c2)%N :: u r2
        | _ => []
        end
      else
        match r with
        | String c1 (String c2 (String c3 r3)) =>
            (N.land n 7 * 262144 + cont c1 * 4096 + cont c2 * 64 + cont c3)%N
              :: u r3
        | _ => []
        end
  end.

Definition len (s : pystr) : Z := Z.of_nat (List.length s).

(** [s[:n]] for a non-negative bound. *)
Definition slice_to (n : nat) (s : pystr) : pystr := firstn n s.

Fixpoint eqb (a b : pystr) : bool :=
  match a, b with
  | [], [] => true
  | x :: a', y :: b' => (x =? y)%N && eqb a' b'
  | _, _ => false
  end.

(** [sep.join(parts)]. *)
Fixpoint join (sep : pystr) (parts : list pystr) : pystr :=
  match parts with
  | [] => []
  | [p] => p
  | p :: rest => p ++ sep ++ join sep rest
  end.

(** [str(n)] for an [int]. *)
Definition of_int (z : Z) : pystr := u (NilZero.string_of_int (Z.to_int z)).

End PyStr.

Import PyStr.

(** ** Truthiness

    [if x:], [not x], [x or y] and [x and y] consult the truth value of the
    operand: [None] is false, numbers are false at zero, strings and lists
    are false when empty. *)

Class Truthy (A : Type) := truthy : A -> bool.

#[export] Instance Truthy_bool : Truthy bool := fun b => b.
#[export] Instance Truthy_int : Truthy Z := fun z => negb (z =? 0).
#[export] Instance Truthy_list {A} : Truthy (list A) :=
  fun l => match l with [] => false | _ :: _ => true end.
#[export] Instance Truthy_option {A} `{Truthy A} : Truthy (option A) :=
  fun o => match o with None => false | Some a => truthy a end.

(* ===================================================================== *)
(** ** Exceptions and awaited calls *)
(* ===================================================================== *)

(** Instances of [Exception]: the two platform errors the source names, and
    every other class below [Exception], kept by class name. The text is
    what [str(exc)] gives. *)
Inductive exception : Type :=
  | TelegramForbiddenError (msg : pystr)
  | TelegramBadRequest (msg : pystr)
  | OtherException (class_name : pystr) (msg : pystr).

(** Everything that can be raised: [Exception] instances, the operator
    interrupt, and the remaining [BaseException] classes (task cancellation,
    interpreter exit), which [except Exception] does not match. *)
Inductive base_exception : Type :=
  | Exc (e : exception)
  | KeyboardInterrupt
  | OtherBaseException (class_name : pystr).

Definition type_name (e : exception) : pystr :=
  match e with
  | TelegramForbiddenError _ => u "TelegramForbiddenError"
  | TelegramBadRequest _ => u "TelegramBadRequest"
  | OtherException n _ => n
  end.

Definition str_exc (e : exception) : pystr :=
  match e with
  | TelegramForbiddenError m | TelegramBadRequest m | OtherException _ m => m
  end.

Inductive outcome (A : Type) : Type :=
  | Ok (a : A)
  | Raise (e : base_exception).
Arguments Ok {A} a.
Arguments Raise {A} e.

Inductive log_level : Type := DEBUG | INFO | WARNING | ERROR.

(** Observable actions, in program order. *)
Inductive event : Type :=
  | EvSendMessage (chat_id : Z) (text : pystr)
  | EvGetChat (chat_id : Z)
  | EvGetChatMemberCount (chat_id : Z)
  | EvGetChatAdministrators (chat_id : Z)
  | EvAnswer (text : pystr)
  | EvDeleteWebhook
  | EvSetMyCommands (scope : pystr)
  | EvStartPolling
  | EvSleep (seconds : Z)
  | EvLog (level : log_level) (msg : pystr).

(** A computation yields the actions it performed and either a value or
    the exception that escaped it. *)
Definition io (A : Type) : Type := (list event * outcome A)%type.

Definition ret {A} (a : A) : io A := ([], Ok a).

Definition bind {A B} (m : io A) (k : A -> io B) : io B :=
  match m with
  | (t, Ok a) => let (t', r) := k a in (t ++ t', r)
  | (t, Raise e) => (t, Raise e)
  end.

Definition emit (ev : event) : io unit := ([ev], Ok tt).

Definition raise {A} (e : base_exception) : io A := ([], Raise e).

(** A call that is not awaited: it returns or raises, without an action of
    its own. *)
Definition call {A} (answer : outcome A) : io A := ([], answer).

(** An awaited platform call: the action is recorded, then the platform's
    answer is returned or its exception raised. *)
Definition await {A} (ev : event) (answer : outcome A) : io A :=
  ([ev], answer).

(** [try: body / except ...:]. The handler table answers [None] for an
    exception no clause matches, which then keeps propagating. *)
Definition try_except {A} (body : io A)
    (handler : base_exception -> option (io A)) : io A :=
  match body with
  | (t, Ok a) => (t, Ok a)
  | (t, Raise e) =>
      match handler e with
      | Some h => let (t', r) := h in (t ++ t', r)
      | None => (t, Raise e)
      end
  end.

Declare Scope io_scope.
Delimit Scope io_scope with io.
Notation "x <- m ;; k" := (bind m (fun x => k))
  (at level 61, m at next level, right associativity) : io_scope.
Notation "m ;; k" := (bind m (fun _ => k))
  (at level 61, right associativity) : io_scope.
Local Open Scope io_scope.

Definition logger_info (msg : pystr) : io unit := emit (EvLog INFO msg).
Definition logger_debug (msg : pystr) : io unit := emit (EvLog DEBUG msg).
Definition logger_exception (msg : pystr) : io unit := emit (EvLog ERROR msg).

Definition trace {A} (m : io A) : list event := fst m.
Definition result {A} (m : io A) : outcome A := snd m.

(* ===================================================================== *)
(** ** Platform objects *)
(* ===================================================================== *)

(** Optional attributes are [option]s: [None] stands both for an attribute
    the platform left out and for one whose value is [None], which is what
    [getattr(obj, name, None)] makes of them. *)
Record User : Type := {
  user_id : Z;
  is_bot : bool;
  full_name : pystr;
  user_username : option pystr;
  language_code : option pystr;
  is_premium : option bool;
  is_scam : option bool;
  is_fake : option bool;
  is_support : option bool;
  added_to_attachment_menu : option bool;
  can_join_groups : option bool;
  can_read_all_group_messages : option bool;
  supports_inline_queries : option bool;
  can_connect_to_business : option bool;
  has_main_web_app : option bool;
  emoji_status_custom_emoji_id : option pystr;
  personal_chat_id : option Z
}.

Record ChatMember : Type := { user : User }.

Record ChatPermissions : Type := {
  can_send_messages : option bool;
  can_send_audios : option bool;
  can_send_documents : option bool;
  can_send_photos : option bool;
  can_send_videos : option bool;
  can_send_video_notes : option bool;
  can_send_voice_notes : option bool;
  can_send_polls : option bool;
  can_send_other_messages : option bool;
  can_add_web_page_previews : option bool;
  can_change_info : option bool;
  can_invite_users : option bool;
  can_pin_messages : option bool;
  can_manage_topics : option bool
}.

(** [chat_type] holds the enumeration's value, which is what the report
    prints whether the field arrives as an enum member or as a string. *)
Record Chat : Type := {
  chat_id : Z;
  chat_type : pystr;
  title : option pystr;
  chat_username : option pystr;
  description : option pystr;
  bio : option pystr;
  invite_link : option pystr;
  has_protected_content : option bool;
  has_hidden_members : option bool;
  has_private_forwards : option bool;
  has_aggressive_anti_spam_enabled : option bool;
  join_to_send_messages : option bool;
  join_by_request : option bool;
  is_forum : option bool;
  linked_chat_id : option Z;
  active_usernames : option (list pystr);
  permissions : option ChatPermissions
}.

Record ForumTopicCreated : Type := {
  topic_name : pystr;
  icon_color : option Z;
  icon_custom_emoji_id : option pystr
}.

Record MessageEntity : Type := {
  entity_type : pystr;
  custom_emoji_id : option pystr
}.

#[warnings="-register-all"] Inductive Message : Type := mkMessage {
  message_chat : Chat;
  from_user : option User;
  message_thread_id : option Z;
  is_topic_message : option bool;
  entities : option (list MessageEntity);
  caption_entities : option (list MessageEntity);
  reply_to_message : option Message;
  forum_topic_created : option ForumTopicCreated
}.

(** The platform as the handlers see it: the answer each awaited call
    gets. *)
Record Bot : Type := {
  send_message : Z -> pystr -> outcome unit;
  get_chat : Z -> outcome Chat;
  get_chat_member_count : Z -> outcome Z;
  get_chat_administrators : Z -> outcome (list ChatMember);
  answer : pystr -> outcome unit;
  delete_webhook : outcome unit;
  set_my_commands : pystr -> outcome unit
}.

(* ===================================================================== *)
(** ** Field renderers *)
(* ===================================================================== *)

Definition yes_no (value : option bool) : pystr :=
  match value with
  | Some true => u "да"
  | Some false => u "нет"
  | None => u "неизвестно"
  end.

(** [x or default] on an optional string. *)
Definition or_default (x : option pystr) (default : pystr) : pystr :=
  match x with
  | Some s => if truthy s then s else default
  | None => default
  end.

(** An optional line: appended only when the attribute is truthy. *)
Definition line_if {A} `{Truthy A} (x : option A) (render : A -> pystr)
  : list pystr :=
  match x with
  | Some a => if truthy a then [render a] else []
  | None => []
  end.

Definition format_user_fields (usr : User) : list pystr :=
  [ u "ID: " ++ of_int (user_id usr);
    u "Bot: " ++ yes_no (Some (is_bot usr));
    u "Имя: " ++ full_name usr;
    match user_username usr with
    | Some name =>
        if truthy name then u "Username: @" ++ name else u "Username: нет"
    | None => u "Username: нет"
    end;
    u "Язык: " ++ or_default (language_code usr) (u "неизвестно");
    u "Premium: " ++ yes_no (is_premium usr);
    u "Scam: " ++ yes_no (is_scam usr);
    u "Fake: " ++ yes_no (is_fake usr);
    u "Support: " ++ yes_no (is_support usr);
    u "Добавлен в меню вложений: " ++ yes_no (added_to_attachment_menu usr);
    u "Может присоединяться к группам: " ++ yes_no (can_join_groups usr);
    u "Может читать все сообщения групп: "
      ++ yes_no (can_read_all_group_messages usr);
    u "Поддерживает inline: " ++ yes_no (supports_inline_queries usr);
    u "Can connect to business: " ++ yes_no (can_connect_to_business usr);
    u "Has main web app: " ++ yes_no (has_main_web_app usr) ]
  ++ line_if (emoji_status_custom_emoji_id usr)
       (fun e => u "Emoji статус: " ++ e)
  ++ line_if (personal_chat_id usr)
       (fun c => u "Personal chat ID: " ++ of_int c).

Definition newline : pystr := u "
".

Definition format_user (usr : User) : pystr :=
  join newline (format_user_fields usr).

(** [xs[:limit]]: a negative bound counts from the end. *)
Definition list_slice_to {A} (limit : Z) (xs : list A) : list A :=
  if 0 <=? limit then firstn (Z.to_nat limit) xs
  else firstn (List.length xs - Z.to_nat (- limit)) xs.

Definition render_admin (m : ChatMember) : pystr :=
  full_name (user m) ++ u " (id " ++ of_int (user_id (user m)) ++ u ")".

Definition format_admins_limit (admins : list ChatMember) (limit : Z) : pystr :=
  if negb (truthy admins) then u "Администраторы: недоступно"
  else
    let shown := list_slice_to limit admins in
    let rendered := join (u ", ") (map render_admin shown) in
    let rendered :=
      if Z.of_nat (List.length admins) >? limit
      then rendered ++ u ", и еще "
             ++ of_int (Z.of_nat (List.length admins) - limit)
      else rendered in
    u "Администраторы (" ++ of_int (Z.of_nat (List.length admins))
      ++ u "): " ++ rendered.

(** The default display limit. *)
Definition format_admins (admins : list ChatMember) : pystr :=
  format_admins_limit admins 6.

(** [getattr(perms, attr, None)]. *)
Definition getattr_perms (perms : ChatPermissions) (attr : string)
  : option bool :=
  if String.eqb attr "can_send_messages" then can_send_messages perms
  else if String.eqb attr "can_send_audios" then can_send_audios perms
  else if String.eqb attr "can_send_documents" then can_send_documents perms
  else if String.eqb attr "can_send_photos" then can_send_photos perms
  else if String.eqb attr "can_send_videos" then can_send_videos perms
  else if String.eqb attr "can_send_video_notes" then can_send_video_notes perms
  else if String.eqb attr "can_send_voice_notes" then can_send_voice_notes perms
  else if String.eqb attr "can_send_polls" then can_send_polls perms
  else if String.eqb attr "can_send_other_messages"
       then can_send_other_messages perms
  else if String.eqb attr "can_add_web_page_previews"
       then can_add_web_page_previews perms
  else if String.eqb attr "can_change_info" then can_change_info perms
  else if String.eqb attr "can_invite_users" then can_invite_users perms
  else if String.eqb attr "can_pin_messages" then can_pin_messages perms
  else if String.eqb attr "can_manage_topics" then can_manage_topics perms
  else None.

(** The label table, in the order the dictionary literal lists it. *)
Definition mapping : list (string * pystr) :=
  [ ("can_send_messages"%string, u "сообщения");
    ("can_send_audios"%string, u "аудио");
    ("can_send_documents"%string, u "документы");
    ("can_send_photos"%string, u "фото");
    ("can_send_videos"%string, u "видео");
    ("can_send_video_notes"%string, u "видео-заметки");
    ("can_send_voice_notes"%string, u "голосовые");
    ("can_send_polls"%string, u "опросы");
    ("can_send_other_messages"%string, u "другое");
    ("can_add_web_page_previews"%string, u "превью ссылок");
    ("can_change_info"%string, u "изменять инфо");
    ("can_invite_users"%string, u "приглашать");
    ("can_pin_messages"%string, u "пинить");
    ("can_manage_topics"%string, u "управлять топиками") ].

(** The [for attr, label in mapping.items()] loop, appending to [allowed]. *)
Definition collect_allowed (perms : ChatPermissions)
    (items : list (string * pystr)) (allowed : list pystr) : list pystr :=
  fold_left
    (fun acc item =>
       if truthy (getattr_perms perms (fst item)) then acc ++ [snd item]
       else acc)
    items allowed.

Definition format_permissions (chat : Chat) : pystr :=
  match permissions chat with
  | None => u "Разрешения по умолчанию: недоступно"
  | Some perms =>
      let allowed := collect_allowed perms mapping [] in
      if negb (truthy allowed) then u "Разрешения по умолчанию: запрещено все"
      else u "Разрешения по умолчанию: " ++ join (u ", ") allowed
  end.

(* ===================================================================== *)
(** ** Custom emoji extraction *)
(* ===================================================================== *)

(** [entities.extend(xs)] guarded by [if xs:]. *)
Definition extend_if {A} (acc : list A) (xs : option (list A)) : list A :=
  match xs with
  | Some l => if truthy l then acc ++ l else acc
  | None => acc
  end.

Definition extract_custom_emoji_ids (message : Message) : list pystr :=
  let all := extend_if (extend_if [] (entities message))
                       (caption_entities message) in
  fold_left
    (fun ids entity =>
       if PyStr.eqb (entity_type entity) (u "custom_emoji") then
         match custom_emoji_id entity with
         | Some custom_id =>
             if truthy custom_id then ids ++ [custom_id] else ids
         | None => ids
         end
       else ids)
    all [].

(** [key in d] for the keys inserted so far. *)
Definition key_in (k : pystr) (keys : list pystr) : bool :=
  existsb (PyStr.eqb k) keys.

(** [list(dict.fromkeys(ids))]: a dictionary keeps its keys in insertion
    order and inserting a present key leaves its position alone. *)
Definition dict_fromkeys (ids : list pystr) : list pystr :=
  fold_left (fun keys k => if key_in k keys then keys else keys ++ [k])
    ids [].

(* ===================================================================== *)
(** ** Chat-report aggregation *)
(* ===================================================================== *)

Definition safe_get_member_count (bot : Bot) (cid : Z) : io (option Z) :=
  try_except
    (n <- await (EvGetChatMemberCount cid) (get_chat_member_count bot cid) ;;
     ret (Some n))
    (fun e =>
       match e with
       | Exc (TelegramForbiddenError _) =>
           Some (logger_info (u "Нет прав читать количество участников") ;;
                 ret None)
       | Exc (TelegramBadRequest _) =>
           Some (logger_info (u "Не удалось получить количество участников") ;;
                 ret None)
       | _ => None
       end).

Definition safe_get_admins (bot : Bot) (cid : Z) : io (list ChatMember) :=
  try_except
    (await (EvGetChatAdministrators cid) (get_chat_administrators bot cid))
    (fun e =>
       match e with
       | Exc (TelegramForbiddenError _) =>
           Some (logger_info (u "Нет прав читать администраторов") ;; ret [])
       | Exc (TelegramBadRequest _) =>
           Some (logger_info (u "Не удалось получить администраторов") ;;
                 ret [])
       | _ => None
       end).

(** The coroutine awaits nothing: the details come from the message at
    hand. *)
Definition fetch_topic_info (thread_id : Z) (message : option Message)
  : list pystr :=
  let topic_data :=
    match message with
    | Some m =>
        match reply_to_message m with
        | Some r => forum_topic_created r
        | None => None
        end
    | None => None
    end in
  match topic_data with
  | None =>
      [u "Топик id " ++ of_int thread_id ++ u ": не удалось загрузить детали"]
  | Some created =>
      [ u "Топик: "
          ++ (if truthy (topic_name created) then topic_name created
              else u "без имени");
        u "Thread ID: " ++ of_int thread_id ]
      ++ match icon_color created with
         | Some c => [u "Цвет иконки: " ++ of_int c]
         | None => []
         end
      ++ line_if (icon_custom_emoji_id created)
           (fun e => u "Emoji иконки: " ++ e)
  end.

Definition topic_guidance : pystr :=
  u "Форумный режим включен. Запустите /info внутри конкретного топика, чтобы вывести сведения о нем.".

Definition chat_lines (chat : Chat) (member_count : option Z)
    (admins : list ChatMember) (thread_id : option Z)
    (is_topic : bool) (message : option Message) : list pystr :=
  [ u "ID: " ++ of_int (chat_id chat);
    u "Тип: " ++ chat_type chat ]
  ++ line_if (title chat) (fun t => u "Название: " ++ t)
  ++ line_if (chat_username chat) (fun n => u "Публичное имя: @" ++ n)
  ++ line_if (description chat) (fun d => u "Описание: " ++ d)
  ++ line_if (bio chat) (fun b => u "Био: " ++ b)
  ++ line_if (invite_link chat) (fun l => u "Инвайт-линк: " ++ l)
  ++ [ u "Защита контента: " ++ yes_no (has_protected_content chat);
       u "Скрытые участники: " ++ yes_no (has_hidden_members chat);
       u "Private forwards: " ++ yes_no (has_private_forwards chat);
       u "Aggressive anti-spam: "
         ++ yes_no (has_aggressive_anti_spam_enabled chat);
       u "Join-to-send: " ++ yes_no (join_to_send_messages chat);
       u "Join-by-request: " ++ yes_no (join_by_request chat);
       u "Форум включен: " ++ yes_no (is_forum chat) ]
  ++ line_if (linked_chat_id chat)
       (fun c => u "Связанный чат ID: " ++ of_int c)
  ++ line_if (active_usernames chat)
       (fun us => u "Доп. юзернеймы: "
                    ++ join (u ", ") (map (fun n => u "@" ++ n) us))
  ++ match member_count with
     | Some n => [u "Участников: " ++ of_int n]
     | None => []
     end
  ++ [format_permissions chat]
  ++ [format_admins admins]
  ++ (if truthy (is_forum chat) then
        match thread_id with
        | Some t =>
            if is_topic && truthy t then fetch_topic_info t message
            else [topic_guidance]
        | None => [topic_guidance]
        end
      else []).

Definition build_chat_info (bot : Bot) (cid : Z) (thread_id : option Z)
    (is_topic : bool) (message : option Message) : io pystr :=
  chat <- await (EvGetChat cid) (get_chat bot cid) ;;
  member_count <- safe_get_member_count bot cid ;;
  admins <- safe_get_admins bot cid ;;
  ret (join newline
         (chat_lines chat member_count admins thread_id is_topic message)).

(* ===================================================================== *)
(** ** Operator identity and notification *)
(* ===================================================================== *)

(** The module-level [OWNER_ID], from the environment value. [py_int] stands
    for the builtin [int] applied to a string: it gives the number read, or
    [None] where [int] raises [ValueError], which the module answers by
    leaving the identity unset and logging a warning. *)
Definition OWNER_ID_of (py_int : pystr -> option Z)
    (OWNER_ID_RAW : option pystr) : option Z :=
  match OWNER_ID_RAW with
  | Some raw => if truthy raw then py_int raw else None
  | None => None
  end.

Section Operator.

Variable OWNER_ID : option Z.

Definition notify_owner (bot : Bot) (text : pystr) : io unit :=
  match OWNER_ID with
  | Some owner =>
      if negb (truthy owner) then ret tt
      else
        try_except
          (await (EvSendMessage owner text) (send_message bot owner text))
          (fun e =>
             match e with
             | Exc _ =>
                 Some (logger_exception
                         (u "Не удалось отправить уведомление владельцу"))
             | _ => None
             end)
  | None => ret tt
  end.

(* ===================================================================== *)
(** ** Error reporter *)
(* ===================================================================== *)

(** The triggering update, by what the reporter asks of it: its structured
    dumps where it has the method (the text is what the f-string prints for
    the dumped value), and its [str]. *)
Record Update : Type := {
  model_dump : option (outcome pystr);
  dict_dump : option (outcome pystr);
  update_str : outcome pystr
}.

Record ErrorEvent : Type := {
  error_exception : exception;
  error_update : option Update
}.

Definition serialize_update (upd : Update) : io pystr :=
  match model_dump upd with
  | Some dumped => call dumped
  | None =>
      match dict_dump upd with
      | Some dumped => call dumped
      | None => call (update_str upd)
      end
  end.

Definition update_dump_of (ev : ErrorEvent) : io pystr :=
  match error_update ev with
  | Some upd =>
      try_except
        (raw <- serialize_update upd ;; ret (u "Update: " ++ raw))
        (fun e =>
           match e with
           | Exc _ =>
               Some (logger_debug
                       (u "Не удалось сериализовать update для отчета") ;;
                     ret [])
           | _ => None
           end)
  | None => ret []
  end.

Definition ellipsis : pystr := u "…".

(** [preview = update_dump], cut at 1500 code points. *)
Definition preview_of (update_dump : pystr) : pystr :=
  if len update_dump >? 1500 then slice_to 1500 update_dump ++ ellipsis
  else update_dump.

Definition report_of (timestamp : pystr) (exc : exception) (preview : pystr)
  : pystr :=
  join newline
    (filter truthy
       [ u "⚠️ Ошибка " ++ timestamp;
         type_name exc ++ u ": " ++ str_exc exc;
         preview ]).

Definition handle_error (timestamp : pystr) (ev : ErrorEvent) (bot : Bot)
  : io bool :=
  let exc := error_exception ev in
  update_dump <- update_dump_of ev ;;
  let preview := preview_of update_dump in
  let report := report_of timestamp exc preview in
  notify_owner bot report ;;
  logger_exception (u "Исключение в обработчике") ;;
  ret true.

(* ===================================================================== *)
(** ** Supervisor *)
(* ===================================================================== *)

(** What the platform does during one pass of the [while True] loop: how
    [start_polling] ends, the clock reading taken if it failed, and how the
    backoff sleep ends. *)
Record iteration : Type := {
  polling : outcome unit;
  failed_at : pystr;
  backoff : outcome unit
}.

(** [RUNNING]: the loop is at its top, about to drive the stream.
    [STOPPED]: the loop was left through [break]. *)
Inductive loop_state : Type := RUNNING | STOPPED.

Definition polling_failed_msg (timestamp : pystr) (exc : exception) : pystr :=
  u "⚠️ Polling упал " ++ timestamp ++ newline
    ++ type_name exc ++ u ": " ++ str_exc exc.

(** One pass through the loop body. *)
Definition loop_body (bot : Bot) (it : iteration) : io loop_state :=
  try_except
    (await EvStartPolling (polling it) ;; ret RUNNING)
    (fun e =>
       match e with
       | KeyboardInterrupt =>
           Some (logger_info (u "Остановка по Ctrl+C") ;; ret STOPPED)
       | Exc exc =>
           Some (notify_owner bot (polling_failed_msg (failed_at it) exc) ;;
                 logger_exception (u "Polling упал, перезапуск через 5 секунд") ;;
                 await (EvSleep 5) (backoff it) ;;
                 ret RUNNING)
       | _ => None
       end).

(** The loop, run against a finite script of platform behaviour; when the
    script is used up the loop is still [RUNNING]. *)
Fixpoint polling_loop (bot : Bot) (script : list iteration) : io loop_state :=
  match script with
  | [] => ret RUNNING
  | it :: rest =>
      st <- loop_body bot it ;;
      match st with
      | RUNNING => polling_loop bot rest
      | STOPPED => ret STOPPED
      end
  end.

Definition set_commands (bot : Bot) : io unit :=
  await (EvSetMyCommands (u "all_private_chats"))
        (set_my_commands bot (u "all_private_chats")) ;;
  await (EvSetMyCommands (u "all_group_chats"))
        (set_my_commands bot (u "all_group_chats")) ;;
  await (EvSetMyCommands (u "all_chat_administrators"))
        (set_my_commands bot (u "all_chat_administrators")).

Definition main (token : option pystr) (bot : Bot) (script : list iteration)
  : io loop_state :=
  if negb (truthy token) then
    raise (Exc (OtherException (u "RuntimeError")
                  (u "BOT_TOKEN не найден в окружении")))
  else
    await EvDeleteWebhook (delete_webhook bot) ;;
    set_commands bot ;;
    polling_loop bot script.

End Operator.

(* ===================================================================== *)
(** ** Private handlers and routing *)
(* ===================================================================== *)

Definition message_answer (bot : Bot) (text : pystr) : io unit :=
  await (EvAnswer text) (answer bot text).

Definition info_private (bot : Bot) (message : Message) : io unit :=
  match from_user message with
  | None => message_answer bot (u "Не удалось получить данные пользователя")
  | Some usr => message_answer bot (format_user usr)
  end.

Definition info_group (bot : Bot) (message : Message) : io unit :=
  text <- build_chat_info bot (chat_id (message_chat message))
            (message_thread_id message)
            (truthy (is_topic_message message))
            (Some message) ;;
  message_answer bot text.

Definition info_channel (bot : Bot) (message : Message) : io unit :=
  text <- build_chat_info bot (chat_id (message_chat message))
            None false None ;;
  message_answer bot text.

(** The text the custom-emoji handler answers with, for the distinct ids. *)
Definition emoji_reply (unique_ids : list pystr) : pystr :=
  match unique_ids with
  | [only] => u "ID кастомной emoji: " ++ only
  | _ => u "ID кастомных emoji:" ++ newline ++ join newline unique_ids
  end.

Definition custom_emoji_id_private (bot : Bot) (message : Message) : io unit :=
  let ids := extract_custom_emoji_ids message in
  if negb (truthy ids) then ret tt
  else
    let unique_ids := dict_fromkeys ids in
    message_answer bot (emoji_reply unique_ids).

Inductive update_kind : Type := MessageUpdate | ChannelPostUpdate.

Inductive handler : Type :=
  | start_private_handler
  | info_private_handler
  | custom_emoji_id_private_handler
  | info_group_handler
  | info_channel_handler.

Definition is_command (name : string) (command : option pystr) : bool :=
  match command with
  | Some c => PyStr.eqb c (u name)
  | None => false
  end.

Definition chat_type_is (message : Message) (value : string) : bool :=
  PyStr.eqb (chat_type (message_chat message)) (u value).

(** The registrations of [main], tried in order; [command] is the command
    the text carries, if any. *)
Definition route (kind : update_kind) (command : option pystr)
    (message : Message) : option handler :=
  match kind with
  | MessageUpdate =>
      if is_command "start" command && chat_type_is message "private"
      then Some start_private_handler
      else if is_command "info" command && chat_type_is message "private"
      then Some info_private_handler
      else if chat_type_is message "private"
      then Some custom_emoji_id_private_handler
      else if is_command "info" command
              && (chat_type_is message "group"
                  || chat_type_is message "supergroup")
      then Some info_group_handler
      else if is_command "info" command && chat_type_is message "channel"
      then Some info_channel_handler
      else None
  | ChannelPostUpdate =>
      if is_command "info" command then Some info_channel_handler else None
  end.

(* ===================================================================== *)
(** ** Specification-side definitions *)
(* ===================================================================== *)

(** The three tokens a tri-state flag can print as. *)
Definition flag_tokens : list pystr := [u "да"; u "нет"; u "неизвестно"].

(** The fixed enumeration of user flags: position of the line in the
    report, label, and the value read from the subject. *)
Definition user_flags (usr : User) : list (nat * pystr * option bool) :=
  [ (1%nat, u "Bot", Some (is_bot usr));
    (5%nat, u "Premium", is_premium usr);
    (6%nat, u "Scam", is_scam usr);
    (7%nat, u "Fake", is_fake usr);
    (8%nat, u "Support", is_support usr);
    (9%nat, u "Добавлен в меню вложений", added_to_attachment_menu usr);
    (10%nat, u "Может присоединяться к группам", can_join_groups usr);
    (11%nat, u "Может читать все сообщения групп",
       can_read_all_group_messages usr);
    (12%nat, u "Поддерживает inline", supports_inline_queries usr);
    (13%nat, u "Can connect to business", can_connect_to_business usr);
    (14%nat, u "Has main web app", has_main_web_app usr) ].

(** [needle] occurs in [text]. *)
Definition occurs_in (needle text : pystr) : Prop :=
  exists before after, text = before ++ needle ++ after.

(** A permission counts as granted only when it is present and true. *)
Definition granted (perms : ChatPermissions) (attr : string) : bool :=
  match getattr_perms perms attr with
  | Some true => true
  | _ => false
  end.

(** The labels of the granted permissions, in the order of the table. *)
Definition granted_labels (perms : ChatPermissions) : list pystr :=
  map snd (filter (fun item => granted perms (fst item)) mapping).

(** A text that starts with neither of the letters that open the two
    fixed endings of the permissions line ("н" and "з"). *)
Definition label_head_ok (label : pystr) : bool :=
  match label with
  | c :: _ => negb (c =? 1085)%N && negb (c =? 1079)%N
  | [] => false
  end.

Definition permissions_unavailable : pystr :=
  u "Разрешения по умолчанию: недоступно".
Definition permissions_all_denied : pystr :=
  u "Разрешения по умолчанию: запрещено все".
Definition permissions_prefix : pystr := u "Разрешения по умолчанию: ".

Definition admins_unavailable : pystr := u "Администраторы: недоступно".

(** The failures the two optional sub-fetches absorb. *)
Definition soft_failure (e : base_exception) : bool :=
  match e with
  | Exc (TelegramForbiddenError _) | Exc (TelegramBadRequest _) => true
  | _ => false
  end.

(** Degradation of a sub-fetch: a soft failure becomes the default value,
    any other exception stays raised. *)
Definition degrade {A} (default : A) (o : outcome A) : outcome A :=
  match o with
  | Ok a => Ok a
  | Raise e => if soft_failure e then Ok default else Raise e
  end.

Definition outcome_map {A B} (f : A -> B) (o : outcome A) : outcome B :=
  match o with
  | Ok a => Ok (f a)
  | Raise e => Raise e
  end.

(** The admin line a chat report carries, from what the admin-list fetch
    answered. *)
Definition admin_line (bot : Bot) (cid : Z) : outcome pystr :=
  outcome_map format_admins (result (safe_get_admins bot cid)).

(** The call ended normally or with an [Exception]: neither an operator
    interrupt nor another [BaseException] came out of it. *)
Definition failure_or_ok {A} (o : outcome A) : Prop :=
  match o with
  | Ok _ | Raise (Exc _) => True
  | Raise _ => False
  end.

(** First-seen deduplication, by recursion on the sequence: keep the head,
    drop its later occurrences. *)
Fixpoint first_seen (ids : list pystr) : list pystr :=
  match ids with
  | [] => []
  | x :: rest =>
      x :: filter (fun y => negb (PyStr.eqb x y)) (first_seen rest)
  end.

(* ===================================================================== *)
(** ** Sample subjects and platforms *)
(* ===================================================================== *)

Definition no_permissions : ChatPermissions :=
  {| can_send_messages := None; can_send_audios := None;
     can_send_documents := None; can_send_photos := None;
     can_send_videos := None; can_send_video_notes := None;
     can_send_voice_notes := None; can_send_polls := None;
     can_send_other_messages := None; can_add_web_page_previews := None;
     can_change_info := None; can_invite_users := None;
     can_pin_messages := None; can_manage_topics := None |}.

Definition send_and_pin : ChatPermissions :=
  {| can_send_messages := Some true; can_send_audios := Some false;
     can_send_documents := None; can_send_photos := Some false;
     can_send_videos := None; can_send_video_notes := None;
     can_send_voice_notes := Some false; can_send_polls := None;
     can_send_other_messages := None; can_add_web_page_previews := None;
     can_change_info := Some false; can_invite_users := None;
     can_pin_messages := Some true; can_manage_topics := None |}.

Definition chat_with (perms : option ChatPermissions) : Chat :=
  {| chat_id := -1001; chat_type := u "supergroup";
     title := Some (u "Echo"); chat_username := None; description := None;
     bio := None; invite_link := None;
     has_protected_content := Some false; has_hidden_members := None;
     has_private_forwards := None;
     has_aggressive_anti_spam_enabled := None;
     join_to_send_messages := None; join_by_request := None;
     is_forum := None; linked_chat_id := None; active_usernames := None;
     permissions := perms |}.

(** A platform that answers every call normally, except for the two
    optional sub-fetches, whose answers are given. *)
Definition platform (count : outcome Z) (admins : outcome (list ChatMember))
  : Bot :=
  {| send_message := fun _ _ => Ok tt;
     get_chat := fun _ => Ok (chat_with (Some send_and_pin));
     get_chat_member_count := fun _ => count;
     get_chat_administrators := fun _ => admins;
     answer := fun _ => Ok tt;
     delete_webhook := Ok tt;
     set_my_commands := fun _ => Ok tt |}.

Definition forbidden : base_exception :=
  Exc (TelegramForbiddenError (u "bot is not a member")).

Definition network_error : base_exception :=
  Exc (OtherException (u "TelegramNetworkError") (u "request timeout")).

(** Boolean occurrence test. *)
Fixpoint prefixb (needle text : pystr) : bool :=
  match needle, text with
  | [], _ => true
  | c :: needle', d :: text' => (c =? d)%N && prefixb needle' text'
  | _ :: _, [] => false
  end.

Fixpoint infixb (needle text : pystr) : bool :=
  prefixb needle text ||
  match text with
  | [] => false
  | _ :: text' => infixb needle text'
  end.

Definition sample_user (uid : Z) (name : string) : User :=
  {| user_id := uid; is_bot := false; full_name := u name;
     user_username := None; language_code := Some (u "ru");
     is_premium := Some true; is_scam := None; is_fake := None;
     is_support := None; added_to_attachment_menu := None;
     can_join_groups := None; can_read_all_group_messages := None;
     supports_inline_queries := None; can_connect_to_business := None;
     has_main_web_app := None; emoji_status_custom_emoji_id := None;
     personal_chat_id := None |}.

Definition sample_admins (n : nat) : list ChatMember :=
  map (fun i => {| user := sample_user (Z.of_nat i) "Admin" |}) (seq 1 n).

(** An update whose structured dump raises, although its [str] works. *)
Definition undumpable_update : Update :=
  {| model_dump :=
       Some (Raise (Exc (OtherException (u "ValueError") (u "bad field"))));
     dict_dump := None;
     update_str := Ok (u "update_id=1 message=None") |}.

Definition boom : exception := OtherException (u "RuntimeError") (u "boom").

Definition failing_handler_event : ErrorEvent :=
  {| error_exception := boom; error_update := Some undumpable_update |}.

Definition sample_timestamp : pystr := u "2024-01-01 00:00:00 UTC".

(** The first message the platform was asked to send, if any. *)
Fixpoint first_sent (t : list event) : option pystr :=
  match t with
  | [] => None
  | EvSendMessage _ text :: _ => Some text
  | _ :: rest => first_sent rest
  end.

(** A platform whose message delivery fails with the given exception. *)
Definition undeliverable (e : base_exception) : Bot :=
  {| send_message := fun _ _ => Raise e;
     get_chat := fun _ => Ok (chat_with None);
     get_chat_member_count := fun _ => Ok 3;
     get_chat_administrators := fun _ => Ok [];
     answer := fun _ => Ok tt;
     delete_webhook := Ok tt;
     set_my_commands := fun _ => Ok tt |}.

Definition emoji_entity (cid : pystr) : MessageEntity :=
  {| entity_type := u "custom_emoji"; custom_emoji_id := Some cid |}.

Definition private_chat : Chat :=
  {| chat_id := 42; chat_type := u "private";
     title := None; chat_username := None; description := None;
     bio := None; invite_link := None;
     has_protected_content := None; has_hidden_members := None;
     has_private_forwards := None;
     has_aggressive_anti_spam_enabled := None;
     join_to_send_messages := None; join_by_request := None;
     is_forum := None; linked_chat_id := None; active_usernames := None;
     permissions := None |}.

(** A private message with the given text and caption annotations. *)
Definition private_message (ents caps : option (list MessageEntity))
  : Message :=
  mkMessage private_chat None None None ents caps None None.

(** A private message whose text carries three custom emoji, the first and
    the last being the same one. *)
Definition emoji_message : Message :=
  private_message
    (Some [emoji_entity (u "5368324170671202286");
           emoji_entity (u "5188216731453103384");
           emoji_entity (u "5368324170671202286")])
    None.

(* ===================================================================== *)
(** ** Supervisor runs *)
(* ===================================================================== *)

Section Runs.

Variable OWNER_ID : option Z.
Variable bot : Bot.

(** The notification the supervisor dispatches for a failed pass. *)
Definition failure_notice (it : iteration) (exc : exception) : io unit :=
  notify_owner OWNER_ID bot (polling_failed_msg (failed_at it) exc).

(** A pass in which the stream-driving call fails and the supervisor gets
    through its recovery: the notifier returns (it delivered, or caught the
    delivery failure) and the backoff sleep elapses. *)
Definition recoverable (it : iteration) : Prop :=
  exists exc,
    polling it = Raise (Exc exc) /\
    result (failure_notice it exc) = Ok tt /\
    backoff it = Ok tt.

(** What such a pass does: start the stream, one notifier call, the log
    entry, one sleep of 5. *)
Definition restart_pass (it : iteration) : list event :=
  match polling it with
  | Raise (Exc exc) =>
      [EvStartPolling] ++ trace (failure_notice it exc)
        ++ [EvLog ERROR (u "Polling упал, перезапуск через 5 секунд");
            EvSleep 5]
  | _ => [EvStartPolling]
  end.

End Runs.

Definition is_start_polling (ev : event) : bool :=
  match ev with EvStartPolling => true | _ => false end.

Definition is_sleep (ev : event) : bool :=
  match ev with EvSleep _ => true | _ => false end.

Definition is_send_message (ev : event) : bool :=
  match ev with EvSendMessage _ _ => true | _ => false end.

Definition count (p : event -> bool) (t : list event) : nat :=
  List.length (filter p t).

(** Sample passes: a stream failure followed by a normal recovery,
    [KeyboardInterrupt] coming out of the stream-driving call,
    [KeyboardInterrupt] coming out of the backoff sleep. *)
Definition failed_pass : iteration :=
  {| polling := Raise (Exc boom);
     failed_at := sample_timestamp;
     backoff := Ok tt |}.

Definition interrupted_pass : iteration :=
  {| polling := Raise KeyboardInterrupt;
     failed_at := sample_timestamp;
     backoff := Ok tt |}.

Definition interrupted_backoff_pass : iteration :=
  {| polling := Raise (Exc boom);
     failed_at := sample_timestamp;
     backoff := Raise KeyboardInterrupt |}.

(** A reader that knows one numeral: it reads "0" as 0, as [int] does, and
    refuses every other text. It stands for [int] where only that reading
    matters. *)
Definition reads_zero (s : pystr) : option Z :=
  if PyStr.eqb s (u "0") then Some 0 else None.

(* ===================================================================== *)
(** ** Remaining handlers and dispatch *)
(* ===================================================================== *)

Definition start_text : pystr :=
  u "Привет! Я вывожу информацию о пользователях, группах и каналах.

/start — эта подсказка.
/info — показать все, что бот знает о тебе в личке.

Отправь кастомную emoji из Premium-набора в личку — верну ее ID.

Если добавить меня в группу, супер-группу или канал, отправьте /info — я верну максимум сведений о чате. В форумах команду лучше писать внутри конкретного топика, чтобы показать его thread_id.".

Definition start_private (bot : Bot) (message : Message) : io unit :=
  message_answer bot start_text.

(** The handler the registrations select is run on the update; an update no
    registration matches is dropped. *)
Definition dispatch (bot : Bot) (kind : update_kind)
    (command : option pystr) (message : Message) : io unit :=
  match route kind command message with
  | Some start_private_handler => start_private bot message
  | Some info_private_handler => info_private bot message
  | Some custom_emoji_id_private_handler => custom_emoji_id_private bot message
  | Some info_group_handler => info_group bot message
  | Some info_channel_handler => info_channel bot message
  | None => ret tt
  end.

(* ===================================================================== *)
(** ** Further specification-side definitions *)
(* ===================================================================== *)

(** The capability flags of a chat report, in report order. *)
Definition chat_flags (chat : Chat) : list (pystr * option bool) :=
  [ (u "Защита контента", has_protected_content chat);
    (u "Скрытые участники", has_hidden_members chat);
    (u "Private forwards", has_private_forwards chat);
    (u "Aggressive anti-spam", has_aggressive_anti_spam_enabled chat);
    (u "Join-to-send", join_to_send_messages chat);
    (u "Join-by-request", join_by_request chat);
    (u "Форум включен", is_forum chat) ].

(** The id one annotation contributes: its custom emoji id when it is a
    custom-emoji annotation with a non-empty id, nothing otherwise. *)
Definition entity_ids (entity : MessageEntity) : list pystr :=
  if PyStr.eqb (entity_type entity) (u "custom_emoji") then
    match custom_emoji_id entity with
    | Some custom_id => if truthy custom_id then [custom_id] else []
    | None => []
    end
  else [].

Definition entities_of (xs : option (list MessageEntity))
  : list MessageEntity :=
  match xs with
  | Some l => l
  | None => []
  end.

(** [text] ends with [suffix]. *)
Definition ends_with (suffix text : pystr) : Prop :=
  exists before, text = before ++ suffix.

Definition is_platform_call (ev : event) : bool :=
  match ev with
  | EvGetChat _ | EvGetChatMemberCount _ | EvGetChatAdministrators _ => true
  | _ => false
  end.

Definition is_answer (ev : event) : bool :=
  match ev with EvAnswer _ => true | _ => false end.

Definition is_log (level : log_level) (ev : event) : bool :=
  match ev, level with
  | EvLog DEBUG _, DEBUG | EvLog INFO _, INFO
  | EvLog WARNING _, WARNING | EvLog ERROR _, ERROR => true
  | _, _ => false
  end.

(** The number of soft failures among the two sub-fetch answers. *)
Definition soft_failures (bot : Bot) (cid : Z) : nat :=
  (match get_chat_member_count bot cid with
   | Raise e => if soft_failure e then 1 else 0
   | Ok _ => 0
   end
   + match get_chat_administrators bot cid with
     | Raise e => if soft_failure e then 1 else 0
     | Ok _ => 0
     end)%nat.

(** A platform with every answer given. *)
Definition platform_of (chat : outcome Chat) (count : outcome Z)
    (admins : outcome (list ChatMember)) (webhook : outcome unit)
    (commands : pystr -> outcome unit) : Bot :=
  {| send_message := fun _ _ => Ok tt;
     get_chat := fun _ => chat;
     get_chat_member_count := fun _ => count;
     get_chat_administrators := fun _ => admins;
     answer := fun _ => Ok tt;
     delete_webhook := webhook;
     set_my_commands := commands |}.

Definition group_message (chat : Chat) : Message :=
  mkMessage chat None None None None None None None.

(** A pass in which the stream-driving call returns normally. The call is
    made with its own signal handling left on, so this is also how it ends
    when the operator interrupts it: it stops polling and returns. *)
Definition returning_pass : iteration :=
  {| polling := Ok tt; failed_at := sample_timestamp; backoff := Ok tt |}.

(** The passes of a script in which the stream-driving call fails with an
    [Exception]. *)
Definition is_stream_failure (it : iteration) : bool :=
  match polling it with
  | Raise (Exc _) => true
  | _ => false
  end.

Definition stream_failures (script : list iteration) : nat :=
  List.length (filter is_stream_failure script).

(** No text occurs twice in the list. *)
Fixpoint distinctb (l : list pystr) : bool :=
  match l with
  | [] => true
  | x :: r => negb (key_in x r) && distinctb r
  end.

(* ===================================================================== *)
(** * Verified properties *)
(* ===================================================================== *)

(** ** Text *)

(** Literals are decoded by evaluation only, never by unification. *)
#[local] Opaque u.

Example u_decodes :
  u "да" = [1076%N; 1072%N] /\ u "…" = [8230%N] /\
  u "⚠️" = [9888%N; 65039%N] /\ u "id" = [105%N; 100%N].
Proof. repeat split; vm_compute; reflexivity. Qed.

Example of_int_samples :
  of_int (-1005) = u "-1005" /\ of_int 0 = u "0" /\ of_int 42 = u "42".
Proof. repeat split; vm_compute; reflexivity. Qed.

Lemma eqb_refl (a : pystr) : PyStr.eqb a a = true.
Proof.
  induction a as [|c a IH]; simpl; [reflexivity|].
  rewrite N.eqb_refl, IH. reflexivity.
Qed.

Lemma eqb_eq (a b : pystr) : PyStr.eqb a b = true <-> a = b.
Proof.
  split.
  - revert b. induction a as [|c a IH]; intros [|d b] H; simpl in H;
      try discriminate; [reflexivity|].
    apply andb_true_iff in H as [Hc Hr].
    apply N.eqb_eq in Hc. apply IH in Hr. congruence.
  - intros ->. apply eqb_refl.
Qed.

Lemma eqb_neq (a b : pystr) : PyStr.eqb a b = false <-> a <> b.
Proof.
  rewrite <- eqb_eq. destruct (PyStr.eqb a b); split; congruence.
Qed.

Lemma join_cons (sep p : pystr) (rest : list pystr) :
  rest <> [] -> join sep (p :: rest) = p ++ sep ++ join sep rest.
Proof. destruct rest; [congruence | reflexivity]. Qed.

(** Every part of a join occurs in the joined text. *)
Lemma join_occurs (sep : pystr) (parts : list pystr) (p : pystr) :
  In p parts -> occurs_in p (join sep parts).
Proof.
  induction parts as [|q parts IH]; intros Hin; [contradiction|].
  destruct parts as [|q' parts].
  - destruct Hin as [->|[]]. exists [], []. simpl. now rewrite app_nil_r.
  - rewrite join_cons by discriminate.
    destruct Hin as [->|Hin].
    + exists [], (sep ++ join sep (q' :: parts)). reflexivity.
    + destruct (IH Hin) as (b & a & E). rewrite E.
      exists (q ++ sep ++ b), a. now rewrite <- !app_assoc.
Qed.

(** Replace the text literals of the goal or of a hypothesis by their code
    points. *)
Ltac literal s :=
  let v := eval vm_compute in (u s) in
  replace (u s) with v in * by (vm_compute; reflexivity).

(** ** Tri-state flags *)

Lemma yes_no_token (v : option bool) : In (yes_no v) flag_tokens.
Proof. destruct v as [[|]|]; simpl; auto. Qed.

Lemma flag_tokens_distinct : NoDup flag_tokens.
Proof.
  unfold flag_tokens.
  literal "да"%string. literal "нет"%string. literal "неизвестно"%string.
  repeat constructor; simpl; intuition discriminate.
Qed.

Lemma yes_no_nonempty (v : option bool) : yes_no v <> [].
Proof. destruct v as [[|]|]; vm_compute; discriminate. Qed.

(** C6. For every user, each flag of the fixed enumeration has its own line
    in the report, at its fixed position, of the form "label: token" where
    the token is one of the three fixed, pairwise distinct, non-empty
    tokens; an absent attribute prints the "unknown" token, so no flag line
    is ever left out. *)
Theorem format_user_flag_lines (usr : User) :
  format_user usr = join newline (format_user_fields usr) /\
  NoDup flag_tokens /\
  yes_no None = u "неизвестно" /\
  Forall
    (fun flag =>
       let '(position, label, value) := flag in
       nth_error (format_user_fields usr) position
         = Some (label ++ u ": " ++ yes_no value) /\
       In (yes_no value) flag_tokens /\
       yes_no value <> [] /\
       occurs_in (label ++ u ": " ++ yes_no value) (format_user usr))
    (user_flags usr).
Proof.
  split; [reflexivity|]. split; [apply flag_tokens_distinct|].
  split; [reflexivity|].
  assert (Hline : forall position label value,
             nth_error (format_user_fields usr) position
               = Some (label ++ u ": " ++ yes_no value) ->
             nth_error (format_user_fields usr) position
               = Some (label ++ u ": " ++ yes_no value) /\
             In (yes_no value) flag_tokens /\
             yes_no value <> [] /\
             occurs_in (label ++ u ": " ++ yes_no value) (format_user usr)).
  { intros position label value H. repeat split; auto.
    - apply yes_no_token.
    - apply yes_no_nonempty.
    - apply join_occurs. eapply nth_error_In. exact H. }
  unfold user_flags.
  repeat (apply Forall_cons; [apply Hline|]); try apply Forall_nil.
  all: unfold format_user_fields; cbn [nth_error app]; f_equal.
  all: match goal with
       | |- u ?a ++ ?y = u ?b ++ u ": " ++ ?y =>
           replace (u a) with (u b ++ u ": ") by (vm_compute; reflexivity);
           now rewrite <- app_assoc
       end.
Qed.

(** ** Permissions line *)

Lemma truthy_getattr (perms : ChatPermissions) (attr : string) :
  truthy (getattr_perms perms attr) = granted perms attr.
Proof. unfold granted. now destruct (getattr_perms perms attr) as [[|]|]. Qed.

(** The append loop collects the filtered labels, in table order. *)
Lemma collect_allowed_filter (perms : ChatPermissions)
    (items : list (string * pystr)) (allowed : list pystr) :
  collect_allowed perms items allowed
  = allowed ++ map snd (filter (fun item => granted perms (fst item)) items).
Proof.
  unfold collect_allowed. revert allowed.
  induction items as [|item items IH]; intros allowed; simpl.
  - now rewrite app_nil_r.
  - rewrite IH, truthy_getattr.
    destruct (granted perms (fst item)); simpl; [|reflexivity].
    now rewrite <- app_assoc.
Qed.

Lemma format_permissions_some (chat : Chat) (perms : ChatPermissions) :
  permissions chat = Some perms ->
  format_permissions chat =
    match granted_labels perms with
    | [] => permissions_all_denied
    | _ :: _ => permissions_prefix ++ join (u ", ") (granted_labels perms)
    end.
Proof.
  intros E. unfold format_permissions. rewrite E.
  rewrite collect_allowed_filter, app_nil_l. fold (granted_labels perms).
  unfold permissions_all_denied, permissions_prefix.
  destruct (granted_labels perms); reflexivity.
Qed.

Lemma granted_labels_head (perms : ChatPermissions) :
  Forall (fun label => label_head_ok label = true) (granted_labels perms).
Proof.
  assert (H : Forall (fun item => label_head_ok (snd item) = true) mapping)
    by (vm_compute; repeat constructor).
  unfold granted_labels. rewrite Forall_forall in *.
  intros label Hin. apply in_map_iff in Hin as (item & <- & Hin).
  apply filter_In in Hin as [Hin _]. now apply H.
Qed.

Lemma join_head_ok (sep : pystr) (labels : list pystr) :
  labels <> [] ->
  Forall (fun label => label_head_ok label = true) labels ->
  label_head_ok (join sep labels) = true.
Proof.
  intros Hne Hall. destruct labels as [|l rest]; [congruence|].
  inversion Hall as [|? ? Hl _]; subst.
  destruct rest; [exact Hl|].
  rewrite join_cons by discriminate.
  destruct l; [discriminate|exact Hl].
Qed.

Lemma granted_labels_nil (perms : ChatPermissions) :
  granted_labels perms = [] <->
  forall attr label,
    In (attr, label) mapping -> getattr_perms perms attr <> Some true.
Proof.
  unfold granted_labels. split.
  - intros E attr label Hin Hg.
    apply map_eq_nil in E.
    assert (Hf : In (attr, label)
                   (filter (fun item => granted perms (fst item)) mapping)).
    { apply filter_In. split; [exact Hin|]. unfold granted. simpl. now rewrite Hg. }
    rewrite E in Hf. contradiction.
  - intros H.
    destruct (filter (fun item => granted perms (fst item)) mapping)
      as [|[attr label] rest] eqn:E; [reflexivity|].
    assert (Hf : In (attr, label)
                   (filter (fun item => granted perms (fst item)) mapping))
      by (rewrite E; now left).
    apply filter_In in Hf as [Hin Hg]. exfalso. apply (H attr label Hin).
    unfold granted in Hg. simpl in Hg.
    now destruct (getattr_perms perms attr) as [[|]|].
Qed.

Lemma permissions_unavailable_split :
  permissions_unavailable = permissions_prefix ++ u "недоступно".
Proof. vm_compute. reflexivity. Qed.

Lemma permissions_all_denied_split :
  permissions_all_denied = permissions_prefix ++ u "запрещено все".
Proof. vm_compute. reflexivity. Qed.

Lemma granted_line_distinct (perms : ChatPermissions) :
  granted_labels perms <> [] ->
  permissions_prefix ++ join (u ", ") (granted_labels perms)
    <> permissions_unavailable /\
  permissions_prefix ++ join (u ", ") (granted_labels perms)
    <> permissions_all_denied.
Proof.
  intros Hne.
  pose proof (join_head_ok (u ", ") _ Hne (granted_labels_head perms)) as Hh.
  split; intros E.
  - rewrite permissions_unavailable_split in E.
    apply app_inv_head in E. rewrite E in Hh. vm_compute in Hh. discriminate.
  - rewrite permissions_all_denied_split in E.
    apply app_inv_head in E. rewrite E in Hh. vm_compute in Hh. discriminate.
Qed.

(** C7. With the permissions record absent the line is the "unavailable"
    line. With the record present the line is the "all denied" line exactly
    when no tracked permission is granted (each is false or absent), and
    otherwise the prefix followed by the comma-joined labels of the granted
    permissions in table order; it is never the "unavailable" line. The
    three renderings are pairwise distinct, and a record granting only
    [can_send_messages] and [can_pin_messages] prints those two labels in
    that order. *)
Theorem format_permissions_cases (chat : Chat) :
  match permissions chat with
  | None => format_permissions chat = permissions_unavailable
  | Some perms =>
      (format_permissions chat = permissions_all_denied <->
       forall attr label,
         In (attr, label) mapping ->
         getattr_perms perms attr = Some false \/
         getattr_perms perms attr = None) /\
      (format_permissions chat = permissions_all_denied \/
       format_permissions chat
         = permissions_prefix ++ join (u ", ") (granted_labels perms)) /\
      format_permissions chat <> permissions_unavailable
  end /\
  permissions_all_denied <> permissions_unavailable /\
  format_permissions (chat_with (Some send_and_pin))
    = u "Разрешения по умолчанию: сообщения, пинить" /\
  format_permissions (chat_with (Some no_permissions))
    = permissions_all_denied.
Proof.
  split; [|split; [vm_compute; discriminate | split; vm_compute; reflexivity]].
  destruct (permissions chat) as [perms|] eqn:E.
  - rewrite (format_permissions_some chat perms E).
    assert (Hnone : granted_labels perms = [] <->
              forall attr label,
                In (attr, label) mapping ->
                getattr_perms perms attr = Some false \/
                getattr_perms perms attr = None).
    { rewrite granted_labels_nil. split; intros H attr label Hin;
        specialize (H attr label Hin).
      - destruct (getattr_perms perms attr) as [[|]|]; auto. congruence.
      - destruct H as [-> | ->]; discriminate. }
    destruct (granted_labels perms) as [|l rest] eqn:G.
    + split; [split|split].
      * intros _. now apply Hnone.
      * reflexivity.
      * now left.
      * vm_compute; discriminate.
    + assert (Hne : granted_labels perms <> []) by (rewrite G; discriminate).
      destruct (granted_line_distinct perms Hne) as [Hu Hd].
      rewrite G in Hu, Hd. split; [split|split].
      * intros Habs. contradiction.
      * intros H. apply Hnone in H. discriminate.
      * now right.
      * exact Hu.
  - unfold format_permissions. rewrite E. reflexivity.
Qed.

Lemma prefixb_app (needle rest : pystr) : prefixb needle (needle ++ rest) = true.
Proof.
  induction needle as [|c needle IH]; simpl; [reflexivity|].
  now rewrite N.eqb_refl, IH.
Qed.

Lemma occurs_in_infixb (needle text : pystr) :
  occurs_in needle text -> infixb needle text = true.
Proof.
  intros (before & after & ->).
  induction before as [|c before IH].
  - simpl app. destruct (needle ++ after) eqn:E; simpl;
      rewrite <- E, prefixb_app; reflexivity.
  - simpl. rewrite IH. apply orb_true_r.
Qed.

(** ** Results of computations *)

Lemma result_bind {A B} (m : io A) (k : A -> io B) :
  result (bind m k) =
    match result m with
    | Ok a => result (k a)
    | Raise e => Raise e
    end.
Proof.
  destruct m as [t [a|e]]; unfold bind, result; simpl; [|reflexivity].
  now destruct (k a).
Qed.

Lemma trace_bind {A B} (m : io A) (k : A -> io B) :
  trace (bind m k) =
    match result m with
    | Ok a => trace m ++ trace (k a)
    | Raise e => trace m
    end.
Proof.
  destruct m as [t [a|e]]; unfold bind, result, trace; simpl; [|reflexivity].
  now destruct (k a).
Qed.

Lemma result_try_except {A} (body : io A)
    (handler : base_exception -> option (io A)) :
  result (try_except body handler) =
    match result body with
    | Ok a => Ok a
    | Raise e =>
        match handler e with
        | Some h => result h
        | None => Raise e
        end
    end.
Proof.
  destruct body as [t [a|e]]; unfold try_except, result; simpl; [reflexivity|].
  destruct (handler e) as [[t' r]|]; reflexivity.
Qed.

(** ** Optional sub-fetches *)

Lemma soft_failure_iff (e : base_exception) :
  soft_failure e = true <->
  exists msg, e = Exc (TelegramForbiddenError msg) \/
              e = Exc (TelegramBadRequest msg).
Proof.
  split.
  - destruct e as [[m|m|n m]| |n]; simpl; try discriminate;
      intros _; exists m; auto.
  - intros (m & [-> | ->]); reflexivity.
Qed.

Lemma safe_get_member_count_result (bot : Bot) (cid : Z) :
  result (safe_get_member_count bot cid)
  = degrade None (outcome_map Some (get_chat_member_count bot cid)).
Proof.
  unfold safe_get_member_count, await, try_except, bind, result.
  destruct (get_chat_member_count bot cid) as [n|[[m|m|c m]| |c]];
    reflexivity.
Qed.

Lemma safe_get_admins_result (bot : Bot) (cid : Z) :
  result (safe_get_admins bot cid)
  = degrade [] (get_chat_administrators bot cid).
Proof.
  unfold safe_get_admins, await, try_except, bind, result.
  destruct (get_chat_administrators bot cid) as [n|[[m|m|c m]| |c]];
    reflexivity.
Qed.

(** C1, as the code has it. A forbidden-access or bad-request failure of
    the member-count fetch degrades to [None] and one of the admin-list
    fetch to the empty list, and the report is then assembled from the
    degraded values; an exception of any other kind raised by either
    sub-fetch is not absorbed: it leaves the sub-fetch and the whole
    report assembly. *)
Theorem sub_fetch_degradation (bot : Bot) (cid : Z) (thread_id : option Z)
    (is_topic : bool) (message : option Message) :
  result (safe_get_member_count bot cid)
    = degrade None (outcome_map Some (get_chat_member_count bot cid)) /\
  result (safe_get_admins bot cid)
    = degrade [] (get_chat_administrators bot cid) /\
  result (build_chat_info bot cid thread_id is_topic message)
    = match get_chat bot cid with
      | Raise e => Raise e
      | Ok chat =>
          match degrade None (outcome_map Some (get_chat_member_count bot cid))
          with
          | Raise e => Raise e
          | Ok member_count =>
              match degrade [] (get_chat_administrators bot cid) with
              | Raise e => Raise e
              | Ok admins =>
                  Ok (join newline
                        (chat_lines chat member_count admins
                           thread_id is_topic message))
              end
          end
      end /\
  (forall e : base_exception,
     soft_failure e = true <->
     exists msg, e = Exc (TelegramForbiddenError msg) \/
                 e = Exc (TelegramBadRequest msg)) /\
  (forall (A : Type) (default : A) (e : base_exception),
     degrade default (Raise e)
       = if soft_failure e then Ok default else Raise e).
Proof.
  split; [apply safe_get_member_count_result|].
  split; [apply safe_get_admins_result|].
  split; [|split; [apply soft_failure_iff | reflexivity]].
  unfold build_chat_info.
  rewrite result_bind.
  change (result (await (EvGetChat cid) (get_chat bot cid)))
    with (get_chat bot cid).
  destruct (get_chat bot cid) as [chat|e]; [|reflexivity].
  rewrite result_bind, safe_get_member_count_result.
  destruct (degrade None (outcome_map Some (get_chat_member_count bot cid)))
    as [member_count|e]; [|reflexivity].
  rewrite result_bind, safe_get_admins_result.
  destruct (degrade [] (get_chat_administrators bot cid)) as [admins|e];
    reflexivity.
Qed.

(** C1, refuted as stated: a network error (an exception that is neither
    forbidden-access nor bad-request) raised by the member-count fetch, or
    by the admin-list fetch, leaves the sub-fetch and aborts the report
    although the base record was fetched. *)
Lemma network_error_aborts_report :
  soft_failure network_error = false /\
  get_chat (platform (Raise network_error) (Ok [])) 1
    = Ok (chat_with (Some send_and_pin)) /\
  result (safe_get_member_count (platform (Raise network_error) (Ok [])) 1)
    = Raise network_error /\
  result (build_chat_info (platform (Raise network_error) (Ok [])) 1
            None false None)
    = Raise network_error /\
  result (safe_get_admins (platform (Ok 3) (Raise network_error)) 1)
    = Raise network_error /\
  result (build_chat_info (platform (Ok 3) (Raise network_error)) 1
            None false None)
    = Raise network_error.
Proof. repeat split; vm_compute; reflexivity. Qed.

(** ** Admin line *)

Lemma admins_counted_line_differs (rest : pystr) :
  u "Администраторы (" ++ rest <> admins_unavailable.
Proof.
  unfold admins_unavailable.
  literal "Администраторы ("%string.
  literal "Администраторы: недоступно"%string.
  simpl. discriminate.
Qed.

Lemma format_admins_unavailable_iff (admins : list ChatMember) :
  format_admins admins = admins_unavailable <-> admins = [].
Proof.
  unfold format_admins, format_admins_limit.
  destruct admins as [|a admins].
  - split; reflexivity.
  - change (negb (truthy (a :: admins))) with false. cbv iota.
    split; [|discriminate].
    intros E. exfalso. revert E. apply admins_counted_line_differs.
Qed.

(** C2, as the code has it. The admin line reads "unavailable" exactly
    when the list handed to the formatter is empty, and the list is empty
    both after a forbidden-access or bad-request failure of the fetch and
    after a fetch that succeeded with zero admins: the two states print the
    same line; only a non-empty list prints a different one. *)
Theorem admin_line_unavailable (bot : Bot) (cid : Z) :
  admin_line bot cid
    = match get_chat_administrators bot cid with
      | Ok admins => Ok (format_admins admins)
      | Raise e => if soft_failure e then Ok admins_unavailable else Raise e
      end /\
  format_admins [] = admins_unavailable /\
  (forall admins : list ChatMember,
     format_admins admins = admins_unavailable <-> admins = []).
Proof.
  split; [|split; [reflexivity | apply format_admins_unavailable_iff]].
  unfold admin_line. rewrite safe_get_admins_result.
  destruct (get_chat_administrators bot cid) as [admins|e]; simpl;
    [reflexivity|].
  destruct (soft_failure e); reflexivity.
Qed.

(** C2, refuted as stated: a fetch that succeeds with zero admins and a
    fetch that fails with forbidden access produce the same admin line. *)
Lemma empty_admin_list_reads_unavailable :
  get_chat_administrators (platform (Ok 3) (Ok [])) 1 = Ok [] /\
  get_chat_administrators (platform (Ok 3) (Raise forbidden)) 1
    = Raise forbidden /\
  admin_line (platform (Ok 3) (Ok [])) 1 = Ok admins_unavailable /\
  admin_line (platform (Ok 3) (Raise forbidden)) 1 = Ok admins_unavailable.
Proof. repeat split; vm_compute; reflexivity. Qed.

Example format_admins_eight :
  format_admins (sample_admins 8)
  = u "Администраторы (8): Admin (id 1), Admin (id 2), Admin (id 3), Admin (id 4), Admin (id 5), Admin (id 6), и еще 2".
Proof. vm_compute. reflexivity. Qed.

(** ** Event preview *)

Lemma ellipsis_one : ellipsis = [8230%N].
Proof. vm_compute. reflexivity. Qed.

Lemma len_slice_to (n : nat) (s : pystr) : len (slice_to n s) <= Z.of_nat n.
Proof.
  unfold len, slice_to. pose proof (firstn_le_length n s). lia.
Qed.

Lemma preview_of_cases (update_dump : pystr) :
  preview_of update_dump
  = slice_to 1500 update_dump
      ++ (if 1500 <? len update_dump then ellipsis else []).
Proof.
  unfold preview_of, slice_to. rewrite Z.gtb_ltb.
  destruct (Z.ltb_spec 1500 (len update_dump)) as [H|H]; [reflexivity|].
  rewrite app_nil_r. symmetry. apply firstn_all2. unfold len in H. lia.
Qed.

Lemma preview_of_truthy (update_dump : pystr) :
  truthy (preview_of update_dump) = truthy update_dump.
Proof.
  rewrite preview_of_cases. unfold slice_to.
  destruct update_dump as [|c rest]; [reflexivity|].
  change (firstn 1500 (c :: rest)) with (c :: firstn 1499 rest).
  reflexivity.
Qed.

(** The report is the timestamp line, the failure line and, when there is
    one, the event body. *)
Lemma report_of_parts (timestamp : pystr) (exc : exception) (preview : pystr) :
  report_of timestamp exc preview
  = join newline
      ([u "⚠️ Ошибка " ++ timestamp; type_name exc ++ u ": " ++ str_exc exc]
         ++ (if truthy preview then [preview] else [])).
Proof.
  unfold report_of.
  literal "⚠️ Ошибка "%string. literal ": "%string.
  cbn [filter app]. change (truthy (?c :: ?r)) with true.
  destruct (type_name exc); cbn [app];
    match goal with
    | |- context [truthy (?c :: ?r)] => change (truthy (c :: r)) with true
    end;
    cbv iota; destruct preview; reflexivity.
Qed.

(** C8. The event body of an error report is the serialized event cut to
    its first 1500 characters, followed by the ellipsis marker exactly when
    the serialized event is longer than 1500 characters; a body of at most
    1500 characters is carried unchanged, with no marker. *)
Theorem preview_capped (update_dump : pystr) :
  preview_of update_dump
    = slice_to 1500 update_dump
        ++ (if 1500 <? len update_dump then ellipsis else []) /\
  len (slice_to 1500 update_dump) <= 1500 /\
  len (preview_of update_dump) <= 1501 /\
  ellipsis = [8230%N] /\
  ((1500 <? len update_dump) = false ->
   preview_of update_dump = update_dump) /\
  ((1500 <? len update_dump) = true ->
   len (slice_to 1500 update_dump) = 1500 /\
   preview_of update_dump = slice_to 1500 update_dump ++ ellipsis) /\
  (forall timestamp exc,
     report_of timestamp exc (preview_of update_dump)
     = join newline
         ([u "⚠️ Ошибка " ++ timestamp;
           type_name exc ++ u ": " ++ str_exc exc]
            ++ (if truthy update_dump then [preview_of update_dump]
                else []))) /\
  (forall OWNER_ID timestamp ev bot,
     handle_error OWNER_ID timestamp ev bot
     = bind (update_dump_of ev)
         (fun dump =>
            bind (notify_owner OWNER_ID bot
                    (report_of timestamp (error_exception ev)
                       (preview_of dump)))
              (fun _ => bind (logger_exception (u "Исключение в обработчике"))
                          (fun _ => ret true)))).
Proof.
  pose proof (len_slice_to 1500 update_dump) as Hs.
  change (Z.of_nat 1500) with 1500 in Hs.
  split; [apply preview_of_cases|]. split; [exact Hs|].
  split.
  { rewrite preview_of_cases. unfold len in *. rewrite length_app.
    destruct (1500 <? _); rewrite ?ellipsis_one; cbn [List.length]; lia. }
  split; [apply ellipsis_one|].
  split; [|split; [|split; [|reflexivity]]].
  3: { intros timestamp exc.
       now rewrite report_of_parts, preview_of_truthy. }
  - intros H. unfold preview_of. rewrite Z.gtb_ltb, H. reflexivity.
  - intros H. apply Z.ltb_lt in H. split.
    + unfold len, slice_to in *. rewrite firstn_length_le; lia.
    + rewrite preview_of_cases.
      now apply Z.ltb_lt in H as ->.
Qed.

Example preview_of_long :
  preview_of (repeat 97%N 1501) = repeat 97%N 1500 ++ ellipsis /\
  preview_of (repeat 97%N 1500) = repeat 97%N 1500.
Proof. split; vm_compute; reflexivity. Qed.

(** ** Error reporter *)

Lemma serialize_update_trace (upd : Update) : trace (serialize_update upd) = [].
Proof.
  unfold serialize_update.
  destruct (model_dump upd); [reflexivity|].
  destruct (dict_dump upd); reflexivity.
Qed.

Lemma io_eta {A} (m : io A) : m = (trace m, result m).
Proof. now destruct m. Qed.

(** C4, as the code has it. When serializing the triggering event raises,
    the failure is logged at debug level and the report goes out with no
    event context at all: it consists of the timestamp line and the failure
    line. The plain textual form of the event is used only when the event
    has neither structured-dump method. *)
Theorem failed_serialization_drops_context (OWNER_ID : option Z)
    (timestamp : pystr) (ev : ErrorEvent) (bot : Bot) (upd : Update)
    (e : exception) :
  error_update ev = Some upd ->
  result (serialize_update upd) = Raise (Exc e) ->
  update_dump_of ev
    = ([EvLog DEBUG (u "Не удалось сериализовать update для отчета")],
       Ok []) /\
  report_of timestamp (error_exception ev) (preview_of [])
    = (u "⚠️ Ошибка " ++ timestamp) ++ newline
        ++ type_name (error_exception ev) ++ u ": "
        ++ str_exc (error_exception ev) /\
  handle_error OWNER_ID timestamp ev bot
    = bind (logger_debug (u "Не удалось сериализовать update для отчета"))
        (fun _ =>
           bind (notify_owner OWNER_ID bot
                   (report_of timestamp (error_exception ev) (preview_of [])))
             (fun _ => bind (logger_exception (u "Исключение в обработчике"))
                         (fun _ => ret true))) /\
  (forall (plain : Update) (text : pystr),
     model_dump plain = None -> dict_dump plain = None ->
     update_str plain = Ok text ->
     result (serialize_update plain) = Ok text).
Proof.
  intros Hupd Hfail.
  assert (Hdump : update_dump_of ev
            = ([EvLog DEBUG (u "Не удалось сериализовать update для отчета")],
               Ok [])).
  { unfold update_dump_of. rewrite Hupd.
    rewrite (io_eta (serialize_update upd)), serialize_update_trace, Hfail.
    reflexivity. }
  split; [exact Hdump|]. split; [|split].
  - unfold report_of, preview_of.
    change (len [] >? 1500) with false. cbv iota.
    literal "⚠️ Ошибка "%string. literal ": "%string.
    destruct (type_name (error_exception ev)); reflexivity.
  - unfold handle_error. rewrite Hdump. reflexivity.
  - intros plain text Hm Hd Hs. unfold serialize_update.
    now rewrite Hm, Hd, Hs.
Qed.

Lemma failed_serialization_drops_context_witness :
  update_dump_of failing_handler_event
    = ([EvLog DEBUG (u "Не удалось сериализовать update для отчета")],
       Ok []).
Proof.
  apply (failed_serialization_drops_context
           (Some 7) sample_timestamp failing_handler_event
           (platform (Ok 3) (Ok [])) undumpable_update
           (OtherException (u "ValueError") (u "bad field"))).
  - reflexivity.
  - reflexivity.
Defined.

(** C4, refuted as stated: for an event whose structured dump raises, the
    report sent to the operator is the two-line text without any event
    context; the plain textual form of the event occurs nowhere in it. *)
Lemma undumpable_event_is_omitted :
  result (serialize_update undumpable_update)
    = Raise (Exc (OtherException (u "ValueError") (u "bad field"))) /\
  update_str undumpable_update = Ok (u "update_id=1 message=None") /\
  first_sent (trace (handle_error (Some 7) sample_timestamp
                       failing_handler_event (platform (Ok 3) (Ok []))))
    = Some (u "⚠️ Ошибка 2024-01-01 00:00:00 UTC
RuntimeError: boom") /\
  ~ occurs_in (u "update_id=1 message=None")
      (u "⚠️ Ошибка 2024-01-01 00:00:00 UTC
RuntimeError: boom").
Proof.
  split; [reflexivity|]. split; [reflexivity|].
  split; [vm_compute; reflexivity|].
  intros H. apply occurs_in_infixb in H. vm_compute in H. discriminate.
Qed.

(** ** Operator notification *)

Lemma truthy_owner_false (OWNER_ID : option Z) :
  truthy OWNER_ID = false <-> OWNER_ID = None \/ OWNER_ID = Some 0.
Proof.
  destruct OWNER_ID as [z|]; [|split; auto].
  change (truthy (Some z)) with (negb (z =? 0)).
  destruct (Z.eqb_spec z 0) as [->|Hz]; simpl; split; auto.
  - discriminate.
  - intros [H|H]; congruence.
Qed.

Lemma notify_owner_off (OWNER_ID : option Z) (bot : Bot) (text : pystr) :
  truthy OWNER_ID = false -> notify_owner OWNER_ID bot text = ([], Ok tt).
Proof.
  intros H. apply truthy_owner_false in H as [-> | ->]; reflexivity.
Qed.

Lemma notify_owner_on (owner : Z) (bot : Bot) (text : pystr) :
  owner <> 0 ->
  notify_owner (Some owner) bot text
  = match send_message bot owner text with
    | Ok tt => ([EvSendMessage owner text], Ok tt)
    | Raise (Exc e) =>
        ([EvSendMessage owner text;
          EvLog ERROR (u "Не удалось отправить уведомление владельцу")],
         Ok tt)
    | Raise other => ([EvSendMessage owner text], Raise other)
    end.
Proof.
  intros Hz. unfold notify_owner.
  change (truthy owner) with (negb (owner =? 0)).
  destruct (Z.eqb_spec owner 0) as [|_]; [contradiction|]. simpl negb. cbv iota.
  unfold await, try_except.
  destruct (send_message bot owner text) as [[]|[e| |c]]; reflexivity.
Qed.

Lemma notify_owner_returns (OWNER_ID : option Z) (bot : Bot) (text : pystr) :
  (forall cid body, failure_or_ok (send_message bot cid body)) ->
  result (notify_owner OWNER_ID bot text) = Ok tt.
Proof.
  intros Hsend.
  destruct (truthy OWNER_ID) eqn:Ht.
  - destruct OWNER_ID as [owner|]; [|discriminate].
    assert (Hz : owner <> 0).
    { intros ->. discriminate. }
    rewrite (notify_owner_on owner bot text Hz).
    specialize (Hsend owner text).
    destruct (send_message bot owner text) as [[]|[e| |c]];
      simpl in Hsend; try contradiction; reflexivity.
  - now rewrite notify_owner_off.
Qed.

Lemma update_dump_of_returns (ev : ErrorEvent) :
  (forall upd, error_update ev = Some upd ->
               failure_or_ok (result (serialize_update upd))) ->
  exists dump, result (update_dump_of ev) = Ok dump.
Proof.
  intros Hser. unfold update_dump_of.
  destruct (error_update ev) as [upd|]; [|now exists []].
  specialize (Hser upd eq_refl).
  rewrite result_try_except, result_bind.
  destruct (result (serialize_update upd)) as [raw|[e| |c]];
    simpl in Hser; try contradiction.
  - now exists (u "Update: " ++ raw).
  - now exists [].
Qed.

(** C5. Whatever the failure being reported and whatever the triggering
    event, the error reporter returns normally (with [True]) as long as
    what goes wrong underneath it is a failure, that is an [Exception]:
    a failed delivery of the operator notification is caught and logged,
    nothing more, and the notifier itself returns normally. *)
Theorem handle_error_never_raises (OWNER_ID : option Z) (timestamp : pystr)
    (ev : ErrorEvent) (bot : Bot) :
  (forall cid body, failure_or_ok (send_message bot cid body)) ->
  (forall upd, error_update ev = Some upd ->
               failure_or_ok (result (serialize_update upd))) ->
  result (handle_error OWNER_ID timestamp ev bot) = Ok true /\
  (forall text, result (notify_owner OWNER_ID bot text) = Ok tt) /\
  (forall owner text e,
     owner <> 0 ->
     send_message bot owner text = Raise (Exc e) ->
     notify_owner (Some owner) bot text
     = ([EvSendMessage owner text;
         EvLog ERROR (u "Не удалось отправить уведомление владельцу")],
        Ok tt)).
Proof.
  intros Hsend Hser. split; [|split].
  - destruct (update_dump_of_returns ev Hser) as (dump & Hdump).
    unfold handle_error.
    rewrite result_bind, Hdump, result_bind, notify_owner_returns by exact Hsend.
    reflexivity.
  - intros text. now apply notify_owner_returns.
  - intros owner text e Hz He.
    now rewrite (notify_owner_on owner bot text Hz), He.
Qed.

Lemma handle_error_never_raises_witness :
  result (handle_error (Some 7) sample_timestamp failing_handler_event
            (undeliverable (Exc boom)))
  = Ok true.
Proof.
  apply (handle_error_never_raises (Some 7) sample_timestamp
           failing_handler_event (undeliverable (Exc boom))).
  - intros cid body. simpl. exact I.
  - intros upd H. injection H as <-. simpl. exact I.
Defined.

Example undelivered_report_is_logged :
  trace (handle_error (Some 7) sample_timestamp failing_handler_event
           (undeliverable (Exc boom)))
  = [ EvLog DEBUG (u "Не удалось сериализовать update для отчета");
      EvSendMessage 7 (u "⚠️ Ошибка 2024-01-01 00:00:00 UTC
RuntimeError: boom");
      EvLog ERROR (u "Не удалось отправить уведомление владельцу");
      EvLog ERROR (u "Исключение в обработчике") ].
Proof. vm_compute. reflexivity. Qed.

(** ** Operator identity *)

Section OperatorIdentity.

(** Whatever [int] does on strings. *)
Variable py_int : pystr -> option Z.

Lemma OWNER_ID_of_falsy (OWNER_ID_RAW : option pystr) :
  truthy (OWNER_ID_of py_int OWNER_ID_RAW) = false <->
  OWNER_ID_RAW = None \/
  exists raw, OWNER_ID_RAW = Some raw /\
              (raw = [] \/ py_int raw = None \/ py_int raw = Some 0).
Proof.
  rewrite truthy_owner_false. unfold OWNER_ID_of.
  destruct OWNER_ID_RAW as [raw|]; [|split; auto].
  destruct raw as [|c raw].
  - split; [|auto]. intros _. right. exists []. auto.
  - change (truthy (c :: raw)) with true. cbv iota. split.
    + intros H. right. exists (c :: raw). split; [reflexivity|].
      destruct H; auto.
    + intros [H|(r & E & [H|[H|H]])]; try discriminate;
        injection E as <-; try discriminate; auto.
Qed.

Lemma OWNER_ID_of_zero (raw : pystr) :
  raw <> [] -> py_int raw = Some 0 ->
  OWNER_ID_of py_int (Some raw) = Some 0.
Proof.
  intros Hne H0. unfold OWNER_ID_of. destruct raw as [|c raw]; [congruence|].
  change (truthy (c :: raw)) with true. exact H0.
Qed.

Lemma OWNER_ID_of_refused (raw : pystr) :
  py_int raw = None -> OWNER_ID_of py_int (Some raw) = None.
Proof. intros H. unfold OWNER_ID_of. rewrite H. now destruct (truthy raw). Qed.

End OperatorIdentity.

(** C10. The notifier sends nothing and returns normally whenever the
    operator identity is falsy. Whatever [int] reads, the identity is falsy
    exactly when the environment value is absent, empty, refused by [int]
    (not a number), or read by [int] as 0: a value that reads as 0 switches
    every operator notification off, exactly as an unset identity does. *)
Theorem notify_owner_disabled (py_int : pystr -> option Z)
    (OWNER_ID_RAW : option pystr) (bot : Bot) (text : pystr) :
  truthy (OWNER_ID_of py_int OWNER_ID_RAW) = false ->
  notify_owner (OWNER_ID_of py_int OWNER_ID_RAW) bot text = ([], Ok tt) /\
  (OWNER_ID_RAW = None \/
   exists raw, OWNER_ID_RAW = Some raw /\
               (raw = [] \/ py_int raw = None \/ py_int raw = Some 0)) /\
  OWNER_ID_of py_int None = None /\
  (forall raw : pystr,
     py_int raw = None -> OWNER_ID_of py_int (Some raw) = None) /\
  (forall raw : pystr,
     raw <> [] -> py_int raw = Some 0 ->
     OWNER_ID_of py_int (Some raw) = Some 0 /\
     truthy (OWNER_ID_of py_int (Some raw)) = false /\
     notify_owner (OWNER_ID_of py_int (Some raw)) bot text
       = notify_owner (OWNER_ID_of py_int None) bot text).
Proof.
  intros H. split; [now apply notify_owner_off|].
  split; [now apply OWNER_ID_of_falsy|].
  split; [reflexivity|].
  split; [apply OWNER_ID_of_refused|].
  intros raw Hne H0. rewrite (OWNER_ID_of_zero py_int raw Hne H0).
  repeat split.
Qed.

Lemma notify_owner_disabled_witness :
  truthy (OWNER_ID_of reads_zero (Some (u "0"))) = false /\
  notify_owner (OWNER_ID_of reads_zero (Some (u "0")))
    (undeliverable (Exc boom)) (u "report")
  = ([], Ok tt).
Proof.
  assert (H : truthy (OWNER_ID_of reads_zero (Some (u "0"))) = false)
    by (vm_compute; reflexivity).
  split; [exact H|].
  exact (proj1 (notify_owner_disabled reads_zero (Some (u "0"))
                  (undeliverable (Exc boom)) (u "report") H)).
Defined.

(** ** Custom emoji ids *)

Lemma eqb_sym (a b : pystr) : PyStr.eqb a b = PyStr.eqb b a.
Proof.
  destruct (PyStr.eqb a b) eqn:E.
  - apply eqb_eq in E as ->. now rewrite eqb_refl.
  - apply eqb_neq in E. symmetry. apply eqb_neq. congruence.
Qed.

Lemma key_in_snoc (y x : pystr) (keys : list pystr) :
  key_in y (keys ++ [x]) = key_in y keys || PyStr.eqb x y.
Proof.
  unfold key_in. rewrite existsb_app. simpl.
  now rewrite orb_false_r, (eqb_sym y x).
Qed.

Lemma key_in_In (y : pystr) (keys : list pystr) :
  key_in y keys = true <-> In y keys.
Proof.
  unfold key_in. rewrite existsb_exists. split.
  - intros (x & Hin & E). apply eqb_eq in E. now subst.
  - intros Hin. exists y. split; [exact Hin | apply eqb_refl].
Qed.

Lemma filter_twice {A} (f g : A -> bool) (l : list A) :
  filter f (filter g l) = filter (fun a => g a && f a) l.
Proof.
  induction l as [|a l IH]; simpl; [reflexivity|].
  destruct (g a); simpl; [|exact IH].
  destruct (f a); now rewrite IH.
Qed.

(** The insertion loop started from the keys [keys] adds, in first-seen
    order, the ids not among them. *)
Lemma dict_loop_first_seen (ids keys : list pystr) :
  fold_left (fun keys k => if key_in k keys then keys else keys ++ [k])
    ids keys
  = keys ++ filter (fun y => negb (key_in y keys)) (first_seen ids).
Proof.
  revert keys. induction ids as [|x ids IH]; intros keys; simpl.
  - now rewrite app_nil_r.
  - rewrite IH. destruct (key_in x keys) eqn:Hx; simpl.
    + f_equal. rewrite filter_twice. apply filter_ext. intros y.
      destruct (PyStr.eqb x y) eqn:E; simpl; [|reflexivity].
      apply eqb_eq in E as <-. now rewrite Hx.
    + rewrite <- app_assoc. simpl. do 2 f_equal.
      rewrite filter_twice. apply filter_ext. intros y.
      rewrite key_in_snoc, negb_orb. apply andb_comm.
Qed.

Lemma dict_fromkeys_first_seen (ids : list pystr) :
  dict_fromkeys ids = first_seen ids.
Proof.
  unfold dict_fromkeys. rewrite dict_loop_first_seen. simpl.
  induction (first_seen ids) as [|y l IH]; simpl; congruence.
Qed.

Lemma first_seen_In (ids : list pystr) (y : pystr) :
  In y (first_seen ids) <-> In y ids.
Proof.
  induction ids as [|x ids IH]; simpl; [tauto|].
  rewrite filter_In, IH. split.
  - intros [H|[H _]]; auto.
  - intros [H|H]; [now left|].
    destruct (PyStr.eqb x y) eqn:E.
    + left. now apply eqb_eq.
    + right. now split.
Qed.

Lemma first_seen_NoDup (ids : list pystr) : NoDup (first_seen ids).
Proof.
  induction ids as [|x ids IH]; simpl; constructor.
  - rewrite filter_In. intros [_ H]. now rewrite eqb_refl in H.
  - now apply NoDup_filter.
Qed.

Lemma emoji_reply_occurs (ids : list pystr) (x : pystr) :
  In x ids -> occurs_in x (emoji_reply ids).
Proof.
  intros Hin.
  assert (Hmany : occurs_in x
            (u "ID кастомных emoji:" ++ newline ++ join newline ids)).
  { destruct (join_occurs newline ids x Hin) as (b & a & E). rewrite E.
    exists ((u "ID кастомных emoji:" ++ newline) ++ b), a.
    now rewrite <- !app_assoc. }
  unfold emoji_reply. destruct ids as [|only [|second ids]]; try exact Hmany.
  destruct Hin as [->|[]].
  exists (u "ID кастомной emoji: "), []. now rewrite app_nil_r.
Qed.

Lemma extract_loop_entities (ids acc : list pystr) :
  Forall (fun i => i <> []) ids ->
  fold_left
    (fun ids entity =>
       if PyStr.eqb (entity_type entity) (u "custom_emoji") then
         match custom_emoji_id entity with
         | Some custom_id =>
             if truthy custom_id then ids ++ [custom_id] else ids
         | None => ids
         end
       else ids)
    (map emoji_entity ids) acc
  = acc ++ ids.
Proof.
  intros Hall. revert acc.
  induction Hall as [|i ids Hi _ IH]; intros acc; simpl.
  - now rewrite app_nil_r.
  - rewrite eqb_refl. destruct i as [|c i]; [congruence|].
    change (truthy (c :: i)) with true. cbv iota.
    rewrite IH, <- app_assoc. reflexivity.
Qed.

Lemma extract_emoji_entities (ids : list pystr) :
  ids <> [] ->
  Forall (fun i => i <> []) ids ->
  extract_custom_emoji_ids (private_message (Some (map emoji_entity ids)) None)
  = ids.
Proof.
  intros Hne Hall. unfold extract_custom_emoji_ids, private_message.
  cbn [entities caption_entities extend_if].
  destruct ids as [|i ids]; [congruence|].
  change (truthy (map emoji_entity (i :: ids))) with true. cbv iota.
  rewrite app_nil_l. now rewrite extract_loop_entities.
Qed.

(** C9. A private message without a command is handled by the custom-emoji
    handler, and when it carries custom-emoji annotations the handler
    answers with the extracted ids after first-seen deduplication: the
    reported sequence has no duplicates, has exactly the extracted ids, and
    keeps each id at the place of its first occurrence; every reported id
    occurs in the answer text. Annotations referencing [A, B, A] are
    reported as [A, B]. *)
Theorem custom_emoji_ids_reported (bot : Bot) (message : Message) :
  extract_custom_emoji_ids message <> [] ->
  let ids := extract_custom_emoji_ids message in
  let reported := dict_fromkeys ids in
  custom_emoji_id_private bot message
    = message_answer bot (emoji_reply reported) /\
  reported = first_seen ids /\
  NoDup reported /\
  (forall x, In x reported <-> In x ids) /\
  (forall x, In x reported -> occurs_in x (emoji_reply reported)) /\
  (chat_type_is message "private" = true ->
   route MessageUpdate None message = Some custom_emoji_id_private_handler) /\
  (forall A B : pystr,
     A <> B -> A <> [] -> B <> [] ->
     extract_custom_emoji_ids
       (private_message
          (Some [emoji_entity A; emoji_entity B; emoji_entity A]) None)
       = [A; B; A] /\
     dict_fromkeys [A; B; A] = [A; B] /\
     custom_emoji_id_private bot
       (private_message
          (Some [emoji_entity A; emoji_entity B; emoji_entity A]) None)
       = message_answer bot
           (u "ID кастомных emoji:" ++ newline ++ A ++ newline ++ B)).
Proof.
  intros Hne ids reported. subst reported ids.
  rewrite dict_fromkeys_first_seen.
  split.
  { unfold custom_emoji_id_private.
    rewrite dict_fromkeys_first_seen.
    destruct (extract_custom_emoji_ids message); [congruence | reflexivity]. }
  split; [reflexivity|].
  split; [apply first_seen_NoDup|].
  split; [intros x; apply first_seen_In|].
  split; [intros x; apply emoji_reply_occurs|].
  split.
  { intros Hp. unfold route, is_command. now rewrite Hp. }
  intros A B HAB HA HB.
  assert (Hex : extract_custom_emoji_ids
                  (private_message
                     (Some [emoji_entity A; emoji_entity B; emoji_entity A])
                     None)
                = [A; B; A]).
  { apply (extract_emoji_entities [A; B; A]); [discriminate|].
    repeat constructor; assumption. }
  assert (Hdict : dict_fromkeys [A; B; A] = [A; B]).
  { rewrite dict_fromkeys_first_seen. apply eqb_neq in HAB.
    cbn [first_seen filter].
    rewrite (eqb_sym B A), HAB. cbn [negb filter].
    rewrite eqb_refl. reflexivity. }
  split; [exact Hex|]. split; [exact Hdict|].
  unfold custom_emoji_id_private. rewrite Hex, Hdict. reflexivity.
Qed.

Lemma custom_emoji_ids_reported_witness :
  extract_custom_emoji_ids emoji_message <> [] /\
  NoDup (dict_fromkeys (extract_custom_emoji_ids emoji_message)).
Proof.
  assert (H : extract_custom_emoji_ids emoji_message <> [])
    by (vm_compute; discriminate).
  split; [exact H|].
  exact (proj1 (proj2 (proj2
           (custom_emoji_ids_reported (platform (Ok 3) (Ok []))
              emoji_message H)))).
Defined.

Example custom_emoji_answer :
  trace (custom_emoji_id_private (platform (Ok 3) (Ok []))
           (private_message
              (Some [emoji_entity (u "5368324170671202286");
                     emoji_entity (u "5188216731453103384")])
              (Some [emoji_entity (u "5368324170671202286")])))
  = [EvAnswer (u "ID кастомных emoji:
5368324170671202286
5188216731453103384")].
Proof. vm_compute. reflexivity. Qed.

(** ** Supervisor *)

Section SupervisorFacts.

Variable OWNER_ID : option Z.
Variable bot : Bot.

Lemma count_app (p : event -> bool) (a b : list event) :
  count p (a ++ b) = (count p a + count p b)%nat.
Proof. unfold count. now rewrite filter_app, length_app. Qed.

(** The notifier performs at most a send and a log entry; it sends exactly
    once when the operator identity is set. *)
Lemma notify_owner_trace (text : pystr) :
  count is_start_polling (trace (notify_owner OWNER_ID bot text)) = 0%nat /\
  count is_sleep (trace (notify_owner OWNER_ID bot text)) = 0%nat /\
  count is_send_message (trace (notify_owner OWNER_ID bot text))
    = (if truthy OWNER_ID then 1 else 0)%nat.
Proof.
  destruct (truthy OWNER_ID) eqn:Ht.
  - destruct OWNER_ID as [owner|]; [|discriminate].
    assert (Hz : owner <> 0) by (intros ->; discriminate).
    rewrite (notify_owner_on owner bot text Hz).
    destruct (send_message bot owner text) as [[]|[e| |c]];
      repeat split; reflexivity.
  - rewrite notify_owner_off by exact Ht. repeat split; reflexivity.
Qed.

Lemma loop_body_cases (it : iteration) :
  loop_body OWNER_ID bot it =
    match polling it with
    | Ok _ => ([EvStartPolling], Ok RUNNING)
    | Raise KeyboardInterrupt =>
        ([EvStartPolling; EvLog INFO (u "Остановка по Ctrl+C")], Ok STOPPED)
    | Raise (Exc exc) =>
        match result (failure_notice OWNER_ID bot it exc) with
        | Ok _ =>
            ([EvStartPolling] ++ trace (failure_notice OWNER_ID bot it exc)
               ++ [EvLog ERROR (u "Polling упал, перезапуск через 5 секунд");
                   EvSleep 5],
             match backoff it with
             | Ok _ => Ok RUNNING
             | Raise e => Raise e
             end)
        | Raise e =>
            ([EvStartPolling] ++ trace (failure_notice OWNER_ID bot it exc),
             Raise e)
        end
    | Raise (OtherBaseException c) =>
        ([EvStartPolling], Raise (OtherBaseException c))
    end.
Proof.
  unfold loop_body, try_except, await, failure_notice.
  destruct (polling it) as [[]|[exc| |c]]; try reflexivity.
  cbn [bind]. unfold bind at 1.
  destruct (notify_owner OWNER_ID bot _) as [t [[]|e]]; cbn [result trace fst snd];
    [|reflexivity].
  unfold logger_exception, emit, bind, ret.
  destruct (backoff it) as [[]|e]; reflexivity.
Qed.

Lemma loop_body_recoverable (it : iteration) :
  recoverable OWNER_ID bot it ->
  loop_body OWNER_ID bot it = (restart_pass OWNER_ID bot it, Ok RUNNING).
Proof.
  intros (exc & Hp & Hn & Hb).
  rewrite loop_body_cases. unfold restart_pass. now rewrite Hp, Hn, Hb.
Qed.

Lemma polling_loop_cons (it : iteration) (rest : list iteration) :
  polling_loop OWNER_ID bot (it :: rest) =
    match result (loop_body OWNER_ID bot it) with
    | Ok RUNNING =>
        (trace (loop_body OWNER_ID bot it)
           ++ trace (polling_loop OWNER_ID bot rest),
         result (polling_loop OWNER_ID bot rest))
    | Ok STOPPED => (trace (loop_body OWNER_ID bot it) ++ [], Ok STOPPED)
    | Raise e => (trace (loop_body OWNER_ID bot it), Raise e)
    end.
Proof.
  cbn [polling_loop]. unfold bind.
  destruct (loop_body OWNER_ID bot it) as [t [[|]|e]]; cbn [result trace fst snd].
  - now destruct (polling_loop OWNER_ID bot rest).
  - reflexivity.
  - reflexivity.
Qed.

(** While the passes so far left the loop running, the loop goes on with
    the rest of the script. *)
Lemma polling_loop_app (done more : list iteration) :
  result (polling_loop OWNER_ID bot done) = Ok RUNNING ->
  polling_loop OWNER_ID bot (done ++ more)
  = (trace (polling_loop OWNER_ID bot done)
       ++ trace (polling_loop OWNER_ID bot more),
     result (polling_loop OWNER_ID bot more)).
Proof.
  induction done as [|it done IH]; intros Hrun.
  - simpl. now destruct (polling_loop OWNER_ID bot more).
  - rewrite <- app_comm_cons, !polling_loop_cons in *.
    destruct (result (loop_body OWNER_ID bot it)) as [[|]|e];
      cbn [result trace fst snd] in *; try discriminate.
    rewrite (IH Hrun). cbn [trace result fst snd]. now rewrite app_assoc.
Qed.

Lemma polling_loop_recoverable (failures : list iteration) :
  Forall (recoverable OWNER_ID bot) failures ->
  polling_loop OWNER_ID bot failures
  = (flat_map (restart_pass OWNER_ID bot) failures, Ok RUNNING).
Proof.
  induction 1 as [|it failures Hit _ IH]; [reflexivity|].
  rewrite polling_loop_cons, (loop_body_recoverable it Hit), IH.
  reflexivity.
Qed.

Lemma restart_pass_counts (it : iteration) :
  recoverable OWNER_ID bot it ->
  count is_start_polling (restart_pass OWNER_ID bot it) = 1%nat /\
  count is_sleep (restart_pass OWNER_ID bot it) = 1%nat /\
  count is_send_message (restart_pass OWNER_ID bot it)
    = (if truthy OWNER_ID then 1 else 0)%nat /\
  Forall (fun ev => is_sleep ev = true -> ev = EvSleep 5)
    (restart_pass OWNER_ID bot it).
Proof.
  intros (exc & Hp & _ & _). unfold restart_pass. rewrite Hp.
  destruct (notify_owner_trace (polling_failed_msg (failed_at it) exc))
    as (Hstart & Hsleep & Hsend).
  fold (failure_notice OWNER_ID bot it exc) in Hstart, Hsleep, Hsend.
  rewrite !count_app, Hstart, Hsleep, Hsend.
  repeat split; try (destruct (truthy OWNER_ID); reflexivity).
  apply Forall_app. split; [repeat constructor; discriminate|].
  apply Forall_app. split; [|repeat constructor; discriminate].
  apply Forall_forall. intros ev Hin Hev. exfalso.
  unfold count in Hsleep.
  assert (Hf : In ev (filter is_sleep (trace (failure_notice OWNER_ID bot it exc))))
    by (apply filter_In; split; assumption).
  destruct (filter is_sleep (trace (failure_notice OWNER_ID bot it exc)));
    [contradiction | discriminate].
Qed.

Lemma restart_passes_counts (failures : list iteration) :
  Forall (recoverable OWNER_ID bot) failures ->
  count is_start_polling (flat_map (restart_pass OWNER_ID bot) failures)
    = List.length failures /\
  count is_sleep (flat_map (restart_pass OWNER_ID bot) failures)
    = List.length failures /\
  count is_send_message (flat_map (restart_pass OWNER_ID bot) failures)
    = (if truthy OWNER_ID then List.length failures else 0%nat) /\
  Forall (fun ev => is_sleep ev = true -> ev = EvSleep 5)
    (flat_map (restart_pass OWNER_ID bot) failures).
Proof.
  induction 1 as [|it failures Hit _ (IH1 & IH2 & IH3 & IH4)].
  - repeat split; try constructor. now destruct (truthy OWNER_ID).
  - destruct (restart_pass_counts it Hit) as (H1 & H2 & H3 & H4).
    cbn [flat_map]. rewrite !count_app, H1, H2, H3, IH1, IH2, IH3.
    repeat split; try reflexivity.
    + now destruct (truthy OWNER_ID).
    + apply Forall_app. now split.
Qed.

(** The loop is left through [break] only when [KeyboardInterrupt] comes
    out of the stream-driving call itself. *)
Lemma loop_body_stopped_iff (it : iteration) :
  result (loop_body OWNER_ID bot it) = Ok STOPPED <->
  polling it = Raise KeyboardInterrupt.
Proof.
  rewrite loop_body_cases.
  destruct (polling it) as [[]|[exc| |c]]; cbn [result snd].
  - split; discriminate.
  - destruct (result (failure_notice OWNER_ID bot it exc)) as [[]|e];
      cbn [result snd]; [destruct (backoff it) as [[]|e]|];
      split; discriminate.
  - split; reflexivity.
  - split; discriminate.
Qed.

End SupervisorFacts.

(** C3. Not met by the code, as to the operator interrupt. The
    stream-driving call is made with its own signal handling left on: on an
    operator interrupt it stops polling and returns normally. A pass that
    ends this way leaves no mark on the loop, which drives the stream again
    at once and is still running: the interrupt is followed by a restart,
    and the loop is not stopped. The loop is left through [break] only when
    [KeyboardInterrupt] comes out of the stream-driving call itself; one
    that arrives during the backoff sleep is outside the guarded call and
    leaves [main] as an exception, the stop not being logged. *)
Theorem operator_interrupt_restarts_polling (OWNER_ID : option Z) (bot : Bot)
    (rest : list iteration) :
  polling_loop OWNER_ID bot (returning_pass :: rest)
    = (EvStartPolling :: trace (polling_loop OWNER_ID bot rest),
       result (polling_loop OWNER_ID bot rest)) /\
  polling_loop OWNER_ID bot [returning_pass; returning_pass]
    = ([EvStartPolling; EvStartPolling], Ok RUNNING) /\
  (forall it,
     result (loop_body OWNER_ID bot it) = Ok STOPPED <->
     polling it = Raise KeyboardInterrupt) /\
  polling_loop (Some 7) (platform (Ok 3) (Ok []))
    [interrupted_backoff_pass; returning_pass]
    = ([ EvStartPolling;
         EvSendMessage 7 (u "⚠️ Polling упал 2024-01-01 00:00:00 UTC
RuntimeError: boom");
         EvLog ERROR (u "Polling упал, перезапуск через 5 секунд");
         EvSleep 5 ],
       Raise KeyboardInterrupt).
Proof.
  split; [|split; [|split]].
  - rewrite polling_loop_cons, loop_body_cases. reflexivity.
  - rewrite !polling_loop_cons, loop_body_cases. reflexivity.
  - apply loop_body_stopped_iff.
  - vm_compute. reflexivity.
Qed.

(** X21. Each time the stream-driving call fails with an [Exception] and
    the recovery goes through, the supervisor calls the operator notifier
    once (one message is sent when an operator identity is set, none
    otherwise), sleeps once, for 5, and drives the stream again from the top
    of the loop; after any number of such failures the loop is still running
    and goes on with whatever comes next. *)
Theorem supervisor_restarts_after_failures (OWNER_ID : option Z) (bot : Bot)
    (failures : list iteration) :
  Forall (recoverable OWNER_ID bot) failures ->
  let run := polling_loop OWNER_ID bot failures in
  run = (flat_map (restart_pass OWNER_ID bot) failures, Ok RUNNING) /\
  count is_start_polling (trace run) = List.length failures /\
  count is_sleep (trace run) = List.length failures /\
  Forall (fun ev => is_sleep ev = true -> ev = EvSleep 5) (trace run) /\
  count is_send_message (trace run)
    = (if truthy OWNER_ID then List.length failures else 0%nat) /\
  (forall more,
     polling_loop OWNER_ID bot (failures ++ more)
     = (trace run ++ trace (polling_loop OWNER_ID bot more),
        result (polling_loop OWNER_ID bot more))).
Proof.
  intros Hfail run. subst run.
  pose proof (polling_loop_recoverable OWNER_ID bot failures Hfail) as Hrun.
  destruct (restart_passes_counts OWNER_ID bot failures Hfail)
    as (H1 & H2 & H3 & H4).
  assert (Hrunning : result (polling_loop OWNER_ID bot failures) = Ok RUNNING)
    by now rewrite Hrun.
  assert (Happ : forall more,
            polling_loop OWNER_ID bot (failures ++ more)
            = (trace (polling_loop OWNER_ID bot failures)
                 ++ trace (polling_loop OWNER_ID bot more),
               result (polling_loop OWNER_ID bot more)))
    by (intros more; now apply polling_loop_app).
  split; [exact Hrun|].
  rewrite Hrun in Happ |- *. cbn [trace fst] in Happ |- *.
  split; [exact H1|]. split; [exact H2|].
  split; [exact H4|]. split; [exact H3|].
  exact Happ.
Qed.

Lemma supervisor_restarts_after_failures_witness :
  Forall (recoverable (Some 7) (platform (Ok 3) (Ok [])))
    [failed_pass; failed_pass] /\
  count is_sleep
    (trace (polling_loop (Some 7) (platform (Ok 3) (Ok []))
              [failed_pass; failed_pass]))
  = 2%nat.
Proof.
  assert (Hrec : recoverable (Some 7) (platform (Ok 3) (Ok [])) failed_pass).
  { exists boom. repeat split. }
  assert (Hfail : Forall (recoverable (Some 7) (platform (Ok 3) (Ok [])))
                    [failed_pass; failed_pass])
    by (repeat constructor; exact Hrec).
  split; [exact Hfail|].
  exact (proj1 (proj2 (proj2
           (supervisor_restarts_after_failures (Some 7)
              (platform (Ok 3) (Ok [])) [failed_pass; failed_pass] Hfail)))).
Defined.

Example supervisor_run :
  polling_loop (Some 7) (platform (Ok 3) (Ok []))
    [failed_pass; interrupted_pass; failed_pass]
  = ([ EvStartPolling;
       EvSendMessage 7 (u "⚠️ Polling упал 2024-01-01 00:00:00 UTC
RuntimeError: boom");
       EvLog ERROR (u "Polling упал, перезапуск через 5 секунд");
       EvSleep 5;
       EvStartPolling;
       EvLog INFO (u "Остановка по Ctrl+C") ],
     Ok STOPPED).
Proof. vm_compute. reflexivity. Qed.

Example supervisor_interrupted_in_backoff :
  polling_loop (Some 7) (platform (Ok 3) (Ok []))
    [interrupted_backoff_pass; failed_pass]
  = ([ EvStartPolling;
       EvSendMessage 7 (u "⚠️ Polling упал 2024-01-01 00:00:00 UTC
RuntimeError: boom");
       EvLog ERROR (u "Polling упал, перезапуск через 5 секунд");
       EvSleep 5 ],
     Raise KeyboardInterrupt).
Proof. vm_compute. reflexivity. Qed.

(* ===================================================================== *)
(** * Further properties *)
(* ===================================================================== *)

(** ** Admin list display limit *)

(** X1. A non-empty admin list prints its total count, then the first six
    admins only, and names the number of the remaining ones exactly when
    there are more than six. *)
Theorem format_admins_shows_six (admins : list ChatMember) :
  admins <> [] ->
  format_admins admins
  = u "Администраторы (" ++ of_int (Z.of_nat (List.length admins))
      ++ u "): " ++ join (u ", ") (map render_admin (firstn 6 admins))
      ++ (if (6 <? List.length admins)%nat
          then u ", и еще " ++ of_int (Z.of_nat (List.length admins - 6))
          else []).
Proof.
  intros Hne. unfold format_admins, format_admins_limit.
  destruct admins as [|a admins]; [congruence|].
  change (negb (truthy (a :: admins))) with false. cbv iota zeta.
  change (list_slice_to 6 (a :: admins)) with (firstn 6 (a :: admins)).
  rewrite Z.gtb_ltb.
  destruct (Nat.ltb_spec 6 (List.length (a :: admins))) as [H|H].
  - assert ((6 <? Z.of_nat (List.length (a :: admins))) = true) as ->
      by (apply Z.ltb_lt; lia).
    replace (Z.of_nat (List.length (a :: admins)) - 6)
      with (Z.of_nat (List.length (a :: admins) - 6)) by lia.
    reflexivity.
  - assert ((6 <? Z.of_nat (List.length (a :: admins))) = false) as ->
      by (apply Z.ltb_ge; lia).
    now rewrite app_nil_r.
Qed.

Lemma format_admins_shows_six_witness :
  sample_admins 8 <> [] /\
  format_admins (sample_admins 8)
  = u "Администраторы (" ++ of_int (Z.of_nat (List.length (sample_admins 8)))
      ++ u "): "
      ++ join (u ", ") (map render_admin (firstn 6 (sample_admins 8)))
      ++ (if (6 <? List.length (sample_admins 8))%nat
          then u ", и еще "
                 ++ of_int (Z.of_nat (List.length (sample_admins 8) - 6))
          else []).
Proof.
  assert (H : sample_admins 8 <> []) by (vm_compute; discriminate).
  split; [exact H|]. exact (format_admins_shows_six (sample_admins 8) H).
Defined.

(** ** User report shape *)

Lemma line_if_length {A} `{Truthy A} (x : option A) (render : A -> pystr) :
  List.length (line_if x render) = if truthy x then 1%nat else 0%nat.
Proof.
  destruct x as [a|]; [|reflexivity].
  change (truthy (Some a)) with (truthy a). unfold line_if.
  now destruct (truthy a).
Qed.

(** X2. The user report has its fifteen fixed lines, starting with the id
    line, plus one line for the emoji status when that id is a non-empty
    string and one for the personal chat when that id is a non-zero number;
    an empty status or a zero id adds no line. *)
Theorem format_user_line_count (usr : User) :
  List.length (format_user_fields usr)
  = (15 + (if truthy (emoji_status_custom_emoji_id usr) then 1 else 0)
        + (if truthy (personal_chat_id usr) then 1 else 0))%nat /\
  nth_error (format_user_fields usr) 0
    = Some (u "ID: " ++ of_int (user_id usr)) /\
  (emoji_status_custom_emoji_id usr = Some [] ->
   personal_chat_id usr = Some 0 ->
   List.length (format_user_fields usr) = 15%nat).
Proof.
  assert (Hlen : List.length (format_user_fields usr)
            = (15 + (if truthy (emoji_status_custom_emoji_id usr)
                     then 1 else 0)
                  + (if truthy (personal_chat_id usr) then 1 else 0))%nat).
  { unfold format_user_fields. rewrite !length_app, !line_if_length.
    cbn [List.length]. lia. }
  split; [exact Hlen|]. split; [reflexivity|].
  intros He Hp. rewrite Hlen, He, Hp. reflexivity.
Qed.

(** ** Chat report shape *)

Lemma join_app_ends (sep : pystr) (parts tail : list pystr) :
  tail <> [] -> ends_with (join sep tail) (join sep (parts ++ tail)).
Proof.
  intros Ht. induction parts as [|q parts IH].
  - exists []. reflexivity.
  - destruct IH as (b & E).
    change ((q :: parts) ++ tail) with (q :: (parts ++ tail)).
    rewrite join_cons by (intros N; apply app_eq_nil in N; tauto).
    rewrite E. exists (q ++ sep ++ b). now rewrite <- !app_assoc.
Qed.

(** X3. Whatever optional fields a chat has and whatever the sub-fetches
    gave, the chat report carries one line for each of the seven capability
    flags, made of the label and one of the three tri-state tokens. *)
Theorem chat_flag_lines (chat : Chat) (member_count : option Z)
    (admins : list ChatMember) (thread_id : option Z) (is_topic : bool)
    (message : option Message) :
  Forall
    (fun flag =>
       In (fst flag ++ u ": " ++ yes_no (snd flag))
          (chat_lines chat member_count admins thread_id is_topic message) /\
       In (yes_no (snd flag)) flag_tokens /\
       occurs_in (fst flag ++ u ": " ++ yes_no (snd flag))
         (join newline
            (chat_lines chat member_count admins thread_id is_topic message)))
    (chat_flags chat).
Proof.
  assert (Hin : forall label value,
            In (label ++ u ": " ++ yes_no value)
               [ u "Защита контента: " ++ yes_no (has_protected_content chat);
                 u "Скрытые участники: " ++ yes_no (has_hidden_members chat);
                 u "Private forwards: " ++ yes_no (has_private_forwards chat);
                 u "Aggressive anti-spam: "
                   ++ yes_no (has_aggressive_anti_spam_enabled chat);
                 u "Join-to-send: " ++ yes_no (join_to_send_messages chat);
                 u "Join-by-request: " ++ yes_no (join_by_request chat);
                 u "Форум включен: " ++ yes_no (is_forum chat) ] ->
            In (label ++ u ": " ++ yes_no value)
               (chat_lines chat member_count admins thread_id is_topic
                  message) /\
            In (yes_no value) flag_tokens /\
            occurs_in (label ++ u ": " ++ yes_no value)
              (join newline
                 (chat_lines chat member_count admins thread_id is_topic
                    message))).
  { intros label value H.
    assert (Hl : In (label ++ u ": " ++ yes_no value)
                   (chat_lines chat member_count admins thread_id is_topic
                      message)).
    { unfold chat_lines. rewrite !in_app_iff.
      right. right. right. right. right. right. left. exact H. }
    split; [exact Hl|]. split; [apply yes_no_token|].
    now apply join_occurs. }
  unfold chat_flags.
  repeat (apply Forall_cons; [apply Hin|]); try apply Forall_nil.
  all: cbn [fst snd].
  all: match goal with
       | |- In (u ?b ++ u ": " ++ ?y) _ =>
           replace (u b ++ u ": " ++ y) with (u (b ++ ": ") ++ y)
             by (rewrite app_assoc; f_equal; vm_compute; reflexivity)
       end.
  all: cbn [String.append]; cbn [In]; tauto.
Qed.

Lemma ends_with_refl (text : pystr) : ends_with text text.
Proof. now exists []. Qed.

Lemma join_last_one (sep a : pystr) : join sep ([a] ++ []) = a.
Proof. reflexivity. Qed.

Lemma join_last_two (sep a b : pystr) :
  join sep ([a] ++ [b]) = a ++ sep ++ b.
Proof. reflexivity. Qed.

Lemma ends_with_skip (sep suffix : pystr) (parts tail : list pystr) :
  ends_with suffix (join sep tail) -> tail <> [] ->
  ends_with suffix (join sep (parts ++ tail)).
Proof.
  intros (b & E) Ht. destruct (join_app_ends sep parts tail Ht) as (b' & E').
  exists (b' ++ b). now rewrite E', E, app_assoc.
Qed.

Lemma app_nonempty_r {A} (a b : list A) : b <> [] -> a ++ b <> [].
Proof. intros Hb N. apply app_eq_nil in N. tauto. Qed.

Lemma fetch_topic_info_nonempty (t : Z) (message : option Message) :
  fetch_topic_info t message <> [].
Proof.
  unfold fetch_topic_info.
  destruct message as [m|]; [|discriminate].
  destruct (reply_to_message m) as [r|]; [|discriminate].
  destruct (forum_topic_created r); discriminate.
Qed.

(** Skip the leading blocks of the report up to its final lines. *)
Ltac nonempty :=
  match goal with
  | |- (_ :: _) ++ _ <> [] => discriminate
  | |- _ :: _ <> [] => discriminate
  | |- _ ++ _ <> [] => apply app_nonempty_r; nonempty
  | |- fetch_topic_info _ _ <> [] => apply fetch_topic_info_nonempty
  end.

Tactic Notation "skip_blocks" integer(n) :=
  do n (apply ends_with_skip; [|nonempty]).

(** X4. The topic part of a chat report comes last. A chat that is not a
    forum has none: its report ends with the admin line. A forum chat
    reported outside a topic (no topic message, no thread id, or thread id
    0) ends with the guidance line; reported inside a topic it ends with
    the topic block. *)
Theorem chat_report_ending (chat : Chat) (member_count : option Z)
    (admins : list ChatMember) (thread_id : option Z) (is_topic : bool)
    (message : option Message) :
  let report :=
    join newline
      (chat_lines chat member_count admins thread_id is_topic message) in
  (truthy (is_forum chat) = false -> ends_with (format_admins admins) report) /\
  (truthy (is_forum chat) = true ->
   is_topic && truthy thread_id = false ->
   ends_with (format_admins admins ++ newline ++ topic_guidance) report) /\
  (truthy (is_forum chat) = true ->
   forall t, thread_id = Some t -> is_topic && truthy t = true ->
   ends_with (join newline (fetch_topic_info t message)) report /\
   fetch_topic_info t message <> []).
Proof.
  intros report. subst report. unfold chat_lines.
  split; [|split].
  - intros Hf. rewrite Hf. skip_blocks 11.
    rewrite join_last_one. apply ends_with_refl.
  - intros Hf Ht. rewrite Hf.
    assert (Hblock : match thread_id with
                     | Some t =>
                         if is_topic && truthy t
                         then fetch_topic_info t message
                         else [topic_guidance]
                     | None => [topic_guidance]
                     end = [topic_guidance]).
    { destruct thread_id as [t|]; [|reflexivity].
      change (truthy (Some t)) with (truthy t) in Ht. rewrite Ht.
      reflexivity. }
    rewrite Hblock. skip_blocks 11.
    rewrite join_last_two. apply ends_with_refl.
  - intros Hf t Ht Htopic. rewrite Hf, Ht, Htopic.
    split; [|apply fetch_topic_info_nonempty].
    skip_blocks 11.
    apply ends_with_skip; [|apply fetch_topic_info_nonempty].
    apply ends_with_refl.
Qed.

Lemma chat_report_ending_witness :
  truthy (is_forum (chat_with None)) = false /\
  ends_with (format_admins [])
    (join newline (chat_lines (chat_with None) None [] None false None)).
Proof.
  assert (H : truthy (is_forum (chat_with None)) = false) by reflexivity.
  split; [exact H|].
  exact (proj1 (chat_report_ending (chat_with None) None [] None false None)
           H).
Defined.

(** ** Topic block *)

(** X5. The topic block is never empty and has at most four lines. When the
    triggering message is absent, is not a reply, or replies to a message
    that did not create a topic, the block is the single placeholder line
    naming the thread id; otherwise its second line names the thread id. *)
Theorem fetch_topic_info_shape (thread_id : Z) (message : option Message) :
  (1 <= List.length (fetch_topic_info thread_id message) <= 4)%nat /\
  ((message = None \/
    (exists m, message = Some m /\ reply_to_message m = None) \/
    (exists m r, message = Some m /\ reply_to_message m = Some r /\
                 forum_topic_created r = None)) ->
   fetch_topic_info thread_id message
   = [u "Топик id " ++ of_int thread_id
        ++ u ": не удалось загрузить детали"]) /\
  (forall m r created,
     message = Some m -> reply_to_message m = Some r ->
     forum_topic_created r = Some created ->
     nth_error (fetch_topic_info thread_id message) 1
       = Some (u "Thread ID: " ++ of_int thread_id) /\
     nth_error (fetch_topic_info thread_id message) 0
       = Some (u "Топик: "
                 ++ (if truthy (topic_name created) then topic_name created
                     else u "без имени"))).
Proof.
  unfold fetch_topic_info. split; [|split].
  - destruct message as [m|]; [|cbn [List.length]; lia].
    destruct (reply_to_message m) as [r|]; [|cbn [List.length]; lia].
    destruct (forum_topic_created r) as [created|]; [|cbn [List.length]; lia].
    rewrite !length_app, line_if_length.
    destruct (icon_color created);
      destruct (truthy (icon_custom_emoji_id created));
      cbn [List.length]; lia.
  - intros [-> | [(m & -> & Hr) | (m & r & -> & Hr & Hc)]].
    + reflexivity.
    + now rewrite Hr.
    + now rewrite Hr, Hc.
  - intros m r created -> Hr Hc. rewrite Hr, Hc. split; reflexivity.
Qed.

(** ** Calls made while assembling a chat report *)

Lemma safe_get_member_count_trace (bot : Bot) (cid : Z) :
  filter is_platform_call (trace (safe_get_member_count bot cid))
    = [EvGetChatMemberCount cid] /\
  List.length (filter (is_log INFO) (trace (safe_get_member_count bot cid)))
    = match get_chat_member_count bot cid with
      | Raise e => if soft_failure e then 1%nat else 0%nat
      | Ok _ => 0%nat
      end /\
  filter is_answer (trace (safe_get_member_count bot cid)) = [].
Proof.
  unfold safe_get_member_count, await, try_except, bind.
  destruct (get_chat_member_count bot cid) as [n|[[m|m|c m]| |c]];
    repeat split.
Qed.

Lemma safe_get_admins_trace (bot : Bot) (cid : Z) :
  filter is_platform_call (trace (safe_get_admins bot cid))
    = [EvGetChatAdministrators cid] /\
  List.length (filter (is_log INFO) (trace (safe_get_admins bot cid)))
    = match get_chat_administrators bot cid with
      | Raise e => if soft_failure e then 1%nat else 0%nat
      | Ok _ => 0%nat
      end /\
  filter is_answer (trace (safe_get_admins bot cid)) = [].
Proof.
  unfold safe_get_admins, await, try_except, bind.
  destruct (get_chat_administrators bot cid) as [n|[[m|m|c m]| |c]];
    repeat split.
Qed.

(** X6. When the base-record fetch fails, whatever the exception, report
    assembly stops there: the exception leaves [build_chat_info] and
    neither the member count nor the admin list is asked for. *)
Theorem base_fetch_failure_is_fatal (bot : Bot) (cid : Z)
    (thread_id : option Z) (is_topic : bool) (message : option Message)
    (e : base_exception) :
  get_chat bot cid = Raise e ->
  build_chat_info bot cid thread_id is_topic message
  = ([EvGetChat cid], Raise e).
Proof.
  intros H. unfold build_chat_info, await, bind. now rewrite H.
Qed.

Lemma base_fetch_failure_is_fatal_witness :
  build_chat_info
    (platform_of (Raise forbidden) (Ok 3) (Ok []) (Ok tt) (fun _ => Ok tt))
    1 None false None
  = ([EvGetChat 1], Raise forbidden).
Proof.
  apply (base_fetch_failure_is_fatal
           (platform_of (Raise forbidden) (Ok 3) (Ok []) (Ok tt)
              (fun _ => Ok tt))
           1 None false None forbidden).
  reflexivity.
Defined.

(** X7. Whenever a chat report is produced, the platform was asked exactly
    three things, in this order: the base record, the member count, the
    admin list (a soft failure of the member count does not stop the admin
    list from being fetched), and each soft failure left exactly one entry
    in the log at info level. *)
Theorem report_calls_in_order (bot : Bot) (cid : Z) (thread_id : option Z)
    (is_topic : bool) (message : option Message) (report : pystr) :
  result (build_chat_info bot cid thread_id is_topic message) = Ok report ->
  filter is_platform_call
    (trace (build_chat_info bot cid thread_id is_topic message))
    = [EvGetChat cid; EvGetChatMemberCount cid; EvGetChatAdministrators cid] /\
  List.length
    (filter (is_log INFO)
       (trace (build_chat_info bot cid thread_id is_topic message)))
    = soft_failures bot cid /\
  filter is_answer
    (trace (build_chat_info bot cid thread_id is_topic message)) = [].
Proof.
  intros Hok.
  destruct (safe_get_member_count_trace bot cid) as (Hc1 & Hc2 & Hc3).
  destruct (safe_get_admins_trace bot cid) as (Ha1 & Ha2 & Ha3).
  pose proof (safe_get_member_count_result bot cid) as Rc.
  pose proof (safe_get_admins_result bot cid) as Ra.
  revert Hok. unfold build_chat_info.
  rewrite result_bind, !trace_bind.
  change (result (await (EvGetChat cid) (get_chat bot cid)))
    with (get_chat bot cid).
  change (trace (await (EvGetChat cid) (get_chat bot cid)))
    with [EvGetChat cid].
  destruct (get_chat bot cid) as [chat|e]; [|discriminate].
  rewrite result_bind, !trace_bind.
  destruct (result (safe_get_member_count bot cid)) as [member_count|e];
    [|discriminate].
  rewrite result_bind, !trace_bind.
  destruct (result (safe_get_admins bot cid)) as [admins|e]; [|discriminate].
  intros _. cbn [ret trace fst].
  rewrite app_nil_r, !filter_app, !length_app, Hc1, Hc2, Hc3, Ha1, Ha2, Ha3.
  repeat split.
Qed.

Lemma report_calls_in_order_witness :
  result (build_chat_info (platform (Raise forbidden) (Ok [])) 1
            None false None)
    = Ok (join newline
            (chat_lines (chat_with (Some send_and_pin)) None [] None false
               None)) /\
  List.length
    (filter (is_log INFO)
       (trace (build_chat_info (platform (Raise forbidden) (Ok [])) 1
                 None false None)))
    = soft_failures (platform (Raise forbidden) (Ok [])) 1.
Proof.
  assert (H : result (build_chat_info (platform (Raise forbidden) (Ok [])) 1
                        None false None)
              = Ok (join newline
                      (chat_lines (chat_with (Some send_and_pin)) None []
                         None false None)))
    by reflexivity.
  split; [exact H|].
  exact (proj1 (proj2
           (report_calls_in_order (platform (Raise forbidden) (Ok [])) 1
              None false None _ H))).
Defined.

(** ** Extraction of custom emoji ids *)

Lemma extract_loop_flat_map (ents : list MessageEntity) (acc : list pystr) :
  fold_left
    (fun ids entity =>
       if PyStr.eqb (entity_type entity) (u "custom_emoji") then
         match custom_emoji_id entity with
         | Some custom_id =>
             if truthy custom_id then ids ++ [custom_id] else ids
         | None => ids
         end
       else ids)
    ents acc
  = acc ++ flat_map entity_ids ents.
Proof.
  revert acc. induction ents as [|e ents IH]; intros acc; cbn [fold_left flat_map].
  - now rewrite app_nil_r.
  - rewrite IH. unfold entity_ids at 2.
    destruct (PyStr.eqb (entity_type e) (u "custom_emoji")); [|reflexivity].
    destruct (custom_emoji_id e) as [c|]; [|reflexivity].
    destruct (truthy c); [|reflexivity].
    now rewrite <- app_assoc.
Qed.

Lemma extend_if_entities (acc : list MessageEntity)
    (xs : option (list MessageEntity)) :
  extend_if acc xs = acc ++ entities_of xs.
Proof.
  destruct xs as [[|e l]|]; cbn [extend_if entities_of];
    try (now rewrite app_nil_r).
  reflexivity.
Qed.

Lemma entity_ids_nonempty (e : MessageEntity) :
  Forall (fun i => i <> []) (entity_ids e) /\
  (List.length (entity_ids e) <= 1)%nat.
Proof.
  unfold entity_ids.
  destruct (PyStr.eqb (entity_type e) (u "custom_emoji"));
    [|split; [constructor | cbn; lia]].
  destruct (custom_emoji_id e) as [[|c r]|]; cbn;
    split; try lia; repeat constructor; discriminate.
Qed.

(** X8. The extracted ids are those of the text annotations followed by
    those of the caption annotations, each in message order; an annotation
    contributes its id only if it is a custom-emoji annotation with a
    non-empty id, so no extracted id is empty and there are never more ids
    than annotations. *)
Theorem extract_custom_emoji_ids_spec (message : Message) :
  extract_custom_emoji_ids message
    = flat_map entity_ids (entities_of (entities message))
        ++ flat_map entity_ids (entities_of (caption_entities message)) /\
  Forall (fun i => i <> []) (extract_custom_emoji_ids message) /\
  (List.length (extract_custom_emoji_ids message)
   <= List.length (entities_of (entities message))
      + List.length (entities_of (caption_entities message)))%nat.
Proof.
  assert (E : extract_custom_emoji_ids message
              = flat_map entity_ids (entities_of (entities message))
                  ++ flat_map entity_ids
                       (entities_of (caption_entities message))).
  { unfold extract_custom_emoji_ids. cbv zeta.
    rewrite extract_loop_flat_map, !extend_if_entities, app_nil_l, app_nil_l.
    apply flat_map_app. }
  assert (Hall : forall ents,
            Forall (fun i => i <> []) (flat_map entity_ids ents) /\
            (List.length (flat_map entity_ids ents) <= List.length ents)%nat).
  { induction ents as [|e ents [IH1 IH2]]; cbn [flat_map List.length].
    - split; [constructor | lia].
    - destruct (entity_ids_nonempty e) as [H1 H2].
      rewrite length_app. split; [now apply Forall_app | lia]. }
  split; [exact E|]. rewrite E, length_app.
  destruct (Hall (entities_of (entities message))) as [H1 H2].
  destruct (Hall (entities_of (caption_entities message))) as [H3 H4].
  split; [now apply Forall_app | lia].
Qed.

(** ** Deduplication *)

Lemma first_seen_fixed (ids : list pystr) :
  NoDup ids -> first_seen ids = ids.
Proof.
  induction 1 as [|x ids Hx _ IH]; cbn [first_seen]; [reflexivity|].
  rewrite IH. f_equal.
  apply forallb_filter_id. apply forallb_forall. intros y Hy.
  apply negb_true_iff, eqb_neq. intros ->. contradiction.
Qed.

Lemma first_seen_length (ids : list pystr) :
  (List.length (first_seen ids) <= List.length ids)%nat.
Proof.
  induction ids as [|x ids IH]; cbn [first_seen List.length]; [lia|].
  pose proof (filter_length_le (fun y => negb (PyStr.eqb x y))
                (first_seen ids)).
  lia.
Qed.

(** X9. Deduplication never lengthens a sequence, leaves a sequence
    without duplicates unchanged, and doing it twice is the same as doing it
    once. *)
Theorem dict_fromkeys_idempotent (ids : list pystr) :
  dict_fromkeys (dict_fromkeys ids) = dict_fromkeys ids /\
  (List.length (dict_fromkeys ids) <= List.length ids)%nat /\
  (NoDup ids -> dict_fromkeys ids = ids) /\
  (dict_fromkeys ids = [] <-> ids = []).
Proof.
  rewrite !dict_fromkeys_first_seen.
  split; [apply first_seen_fixed, first_seen_NoDup|].
  split; [apply first_seen_length|].
  split; [apply first_seen_fixed|].
  destruct ids; cbn [first_seen]; split; congruence.
Qed.

(** X10. When every extracted id is the same id, however many annotations
    carry it, one id is reported and the answer is the one-line, singular
    form. *)
Theorem repeated_emoji_reported_once (ids : list pystr) (x : pystr) :
  ids <> [] -> Forall (fun i => i = x) ids ->
  dict_fromkeys ids = [x] /\
  emoji_reply (dict_fromkeys ids) = u "ID кастомной emoji: " ++ x.
Proof.
  intros Hne Hall.
  assert (E : dict_fromkeys ids = [x]).
  { rewrite dict_fromkeys_first_seen.
    destruct Hall as [|i ids -> Hall]; [congruence|]. clear Hne.
    cbn [first_seen]. f_equal.
    induction Hall as [|i ids -> _ IH]; [reflexivity|].
    cbn [first_seen filter]. rewrite eqb_refl. cbn [negb].
    rewrite filter_twice.
    rewrite (filter_ext _ (fun y => negb (PyStr.eqb x y))); [exact IH|].
    intros y. now destruct (PyStr.eqb x y). }
  split; [exact E|]. now rewrite E.
Qed.

Lemma repeated_emoji_reported_once_witness :
  dict_fromkeys [u "5368324170671202286"; u "5368324170671202286"]
  = [u "5368324170671202286"].
Proof.
  apply (repeated_emoji_reported_once
           [u "5368324170671202286"; u "5368324170671202286"]
           (u "5368324170671202286")).
  - discriminate.
  - repeat constructor.
Defined.

(** X11. The custom-emoji handler answers at most once: not at all (and
    without any other action) when the message carries no custom emoji id,
    and exactly once otherwise. *)
Theorem custom_emoji_handler_answers (bot : Bot) (message : Message) :
  (extract_custom_emoji_ids message = [] ->
   custom_emoji_id_private bot message = ([], Ok tt)) /\
  (extract_custom_emoji_ids message <> [] ->
   trace (custom_emoji_id_private bot message)
   = [EvAnswer
        (emoji_reply (dict_fromkeys (extract_custom_emoji_ids message)))]) /\
  (List.length (filter is_answer (trace (custom_emoji_id_private bot message)))
   <= 1)%nat.
Proof.
  unfold custom_emoji_id_private.
  destruct (extract_custom_emoji_ids message) as [|i ids].
  - repeat split; try congruence. cbn. lia.
  - change (negb (truthy (i :: ids))) with false. cbv iota zeta.
    unfold message_answer, await. cbn [trace fst filter is_answer List.length].
    repeat split; try congruence. lia.
Qed.

(** ** Routing and dispatch *)

Lemma start_is_not_info (command : option pystr) :
  is_command "start" command = true -> is_command "info" command = false.
Proof.
  destruct command as [c|]; [|discriminate]. unfold is_command.
  intros H. apply eqb_eq in H as ->. vm_compute. reflexivity.
Qed.

(** X12. Routing. Every message in a private chat is handled, and one
    without a command always by the custom-emoji handler. Outside private
    chats a message is handled only if it carries the info command in a
    group, supergroup or channel, and a channel post only if it carries the
    info command; everything else, the start command outside private chats
    included, is dropped. *)
Theorem route_cases (command : option pystr) (message : Message) :
  (chat_type_is message "private" = true ->
   route MessageUpdate command message <> None /\
   route MessageUpdate None message = Some custom_emoji_id_private_handler) /\
  (route MessageUpdate command message = None <->
   chat_type_is message "private" = false /\
   (is_command "info" command = false \/
    chat_type_is message "group" = false /\
    chat_type_is message "supergroup" = false /\
    chat_type_is message "channel" = false)) /\
  (route ChannelPostUpdate command message = None <->
   is_command "info" command = false) /\
  (is_command "start" command = true ->
   chat_type_is message "private" = false ->
   route MessageUpdate command message = None) /\
  (forall kind h, route kind None message = Some h ->
                  h = custom_emoji_id_private_handler).
Proof.
  split; [|split; [|split; [|split]]].
  - intros Hp. unfold route, is_command at 3 4 5 6. rewrite Hp.
    split; [|reflexivity].
    destruct (is_command "start" command), (is_command "info" command);
      discriminate.
  - unfold route.
    destruct (is_command "start" command), (is_command "info" command),
      (chat_type_is message "private"), (chat_type_is message "group"),
      (chat_type_is message "supergroup"), (chat_type_is message "channel");
      cbn [andb orb]; split; intros H; try discriminate; try reflexivity;
      try (split; [reflexivity | tauto]);
      destruct H as [H1 [H2 | (H2 & H3 & H4)]]; discriminate.
  - unfold route. destruct (is_command "info" command); split; congruence.
  - intros Hs Hp. pose proof (start_is_not_info command Hs) as Hi.
    unfold route. now rewrite Hs, Hi, Hp.
  - intros kind h. unfold route, is_command.
    destruct kind; cbn [andb]; [|discriminate].
    destruct (chat_type_is message "private"); congruence.
Qed.

Lemma build_chat_info_no_answer (bot : Bot) (cid : Z) (thread_id : option Z)
    (is_topic : bool) (message : option Message) :
  filter is_answer (trace (build_chat_info bot cid thread_id is_topic message))
  = [].
Proof.
  destruct (safe_get_member_count_trace bot cid) as (_ & _ & Hc).
  destruct (safe_get_admins_trace bot cid) as (_ & _ & Ha).
  unfold build_chat_info. rewrite trace_bind.
  change (result (await (EvGetChat cid) (get_chat bot cid)))
    with (get_chat bot cid).
  change (trace (await (EvGetChat cid) (get_chat bot cid)))
    with [EvGetChat cid].
  destruct (get_chat bot cid) as [chat|e]; [|reflexivity].
  rewrite trace_bind.
  destruct (result (safe_get_member_count bot cid)) as [member_count|e];
    [|now rewrite filter_app, Hc].
  rewrite trace_bind.
  destruct (result (safe_get_admins bot cid)) as [admins|e];
    rewrite !filter_app, Hc, ?filter_app, Ha; reflexivity.
Qed.

Lemma answer_after (bot : Bot) (m : io pystr) :
  filter is_answer (trace m) = [] ->
  match result m with
  | Ok text =>
      trace (bind m (message_answer bot)) = trace m ++ [EvAnswer text] /\
      result (bind m (message_answer bot)) = answer bot text
  | Raise e =>
      bind m (message_answer bot) = (trace m, Raise e)
  end /\
  (List.length (filter is_answer (trace (bind m (message_answer bot)))) <= 1)%nat.
Proof.
  intros Hno. destruct m as [t [text|e]]; cbn [result trace fst snd] in *.
  - unfold bind, message_answer, await. cbn [trace result fst snd].
    rewrite filter_app, Hno. cbn. repeat split. lia.
  - unfold bind. cbn [trace fst]. rewrite Hno. cbn. split; [reflexivity | lia].
Qed.

(** X13. A failed chat report is never answered. When assembling the report
    raises (the base record cannot be fetched, or a sub-fetch fails with
    something other than a soft failure), the group and channel handlers
    send nothing to the chat and the exception leaves the handler; when the
    report is produced it is sent as the one answer, after all fetches. *)
Theorem info_handlers_answer (bot : Bot) (message : Message) :
  let group_report :=
    build_chat_info bot (chat_id (message_chat message))
      (message_thread_id message) (truthy (is_topic_message message))
      (Some message) in
  let channel_report :=
    build_chat_info bot (chat_id (message_chat message)) None false None in
  (forall e, result group_report = Raise e ->
     info_group bot message = (trace group_report, Raise e) /\
     filter is_answer (trace (info_group bot message)) = []) /\
  (forall text, result group_report = Ok text ->
     trace (info_group bot message) = trace group_report ++ [EvAnswer text]) /\
  (forall e, result channel_report = Raise e ->
     info_channel bot message = (trace channel_report, Raise e) /\
     filter is_answer (trace (info_channel bot message)) = []) /\
  (forall text, result channel_report = Ok text ->
     trace (info_channel bot message)
     = trace channel_report ++ [EvAnswer text]).
Proof.
  intros group_report channel_report.
  pose proof (build_chat_info_no_answer bot (chat_id (message_chat message))
                (message_thread_id message)
                (truthy (is_topic_message message)) (Some message)) as Hg.
  pose proof (build_chat_info_no_answer bot (chat_id (message_chat message))
                None false None) as Hc.
  fold group_report in Hg. fold channel_report in Hc.
  destruct (answer_after bot group_report Hg) as [Ag _].
  destruct (answer_after bot channel_report Hc) as [Ac _].
  change (info_group bot message)
    with (bind group_report (message_answer bot)).
  change (info_channel bot message)
    with (bind channel_report (message_answer bot)).
  repeat split.
  - rewrite H in Ag. exact Ag.
  - rewrite H in Ag. rewrite Ag. exact Hg.
  - intros text H. rewrite H in Ag. apply Ag.
  - rewrite H in Ac. exact Ac.
  - rewrite H in Ac. rewrite Ac. exact Hc.
  - intros text H. rewrite H in Ac. apply Ac.
Qed.

Lemma custom_emoji_handler_answers_bound (bot : Bot) (message : Message) :
  (List.length
     (filter is_answer (trace (custom_emoji_id_private bot message))) <= 1)%nat.
Proof.
  unfold custom_emoji_id_private.
  destruct (extract_custom_emoji_ids message) as [|i ids]; [cbn; lia|].
  change (negb (truthy (i :: ids))) with false. cbv iota zeta.
  unfold message_answer, await. cbn [trace fst filter is_answer List.length].
  lia.
Qed.

(** X14. Whatever the update, dispatching it answers at most once, and an
    update that no registration matches causes no action at all. *)
Theorem dispatch_answers_at_most_once (bot : Bot) (kind : update_kind)
    (command : option pystr) (message : Message) :
  (List.length
     (filter is_answer (trace (dispatch bot kind command message))) <= 1)%nat /\
  (route kind command message = None ->
   dispatch bot kind command message = ([], Ok tt)).
Proof.
  unfold dispatch. split.
  - destruct (route kind command message) as [[| | | |]|].
    + cbn. lia.
    + unfold info_private, message_answer, await.
      destruct (from_user message); cbn; lia.
    + apply custom_emoji_handler_answers_bound.
    + apply (answer_after bot). apply build_chat_info_no_answer.
    + apply (answer_after bot). apply build_chat_info_no_answer.
    + cbn. lia.
  - now intros ->.
Qed.

(** ** Startup and the other ways polling can end *)

Lemma bind_await {A B} (ev : event) (o : outcome A) (k : A -> io B) :
  bind (await ev o) k
  = match o with
    | Ok a => (ev :: trace (k a), result (k a))
    | Raise e => ([ev], Raise e)
    end.
Proof.
  unfold bind, await. destruct o as [a|e]; [|reflexivity].
  now destruct (k a).
Qed.

Lemma set_commands_cases (bot : Bot) :
  set_commands bot
  = match set_my_commands bot (u "all_private_chats") with
    | Raise e => ([EvSetMyCommands (u "all_private_chats")], Raise e)
    | Ok _ =>
        match set_my_commands bot (u "all_group_chats") with
        | Raise e =>
            ([EvSetMyCommands (u "all_private_chats");
              EvSetMyCommands (u "all_group_chats")], Raise e)
        | Ok _ =>
            ([EvSetMyCommands (u "all_private_chats");
              EvSetMyCommands (u "all_group_chats");
              EvSetMyCommands (u "all_chat_administrators")],
             set_my_commands bot (u "all_chat_administrators"))
        end
    end.
Proof.
  unfold set_commands. rewrite bind_await.
  destruct (set_my_commands bot (u "all_private_chats")) as [[]|e];
    [|reflexivity].
  rewrite bind_await.
  destruct (set_my_commands bot (u "all_group_chats")) as [[]|e];
    reflexivity.
Qed.

(** X15. Polling is started only after a complete startup: if the stream is
    ever driven, the token was present and the webhook removal and all three
    command registrations had succeeded. With the token missing, [main]
    raises before any platform call; with the webhook removal failing it
    stops right there. *)
Theorem main_polls_only_after_startup (OWNER_ID : option Z)
    (token : option pystr) (bot : Bot) (script : list iteration) :
  (truthy token = false ->
   main OWNER_ID token bot script
   = ([], Raise (Exc (OtherException (u "RuntimeError")
                        (u "BOT_TOKEN не найден в окружении"))))) /\
  (forall e, truthy token = true -> delete_webhook bot = Raise e ->
   main OWNER_ID token bot script = ([EvDeleteWebhook], Raise e)) /\
  (count is_start_polling (trace (main OWNER_ID token bot script)) <> 0%nat ->
   truthy token = true /\
   delete_webhook bot = Ok tt /\
   set_my_commands bot (u "all_private_chats") = Ok tt /\
   set_my_commands bot (u "all_group_chats") = Ok tt /\
   set_my_commands bot (u "all_chat_administrators") = Ok tt) /\
  (truthy token = true ->
   delete_webhook bot = Ok tt ->
   (forall scope, set_my_commands bot scope = Ok tt) ->
   main OWNER_ID token bot script
   = ([EvDeleteWebhook;
       EvSetMyCommands (u "all_private_chats");
       EvSetMyCommands (u "all_group_chats");
       EvSetMyCommands (u "all_chat_administrators")]
        ++ trace (polling_loop OWNER_ID bot script),
      result (polling_loop OWNER_ID bot script))).
Proof.
  unfold main, raise.
  split; [|split; [|split]].
  - now intros ->.
  - intros e -> He. cbn [negb]. cbv iota. now rewrite bind_await, He.
  - destruct (truthy token); cbn [negb]; cbv iota; [|cbn; congruence].
    rewrite bind_await.
    destruct (delete_webhook bot) as [[]|e]; [|cbn; congruence].
    cbn [trace fst]. rewrite trace_bind, set_commands_cases.
    destruct (set_my_commands bot (u "all_private_chats")) as [[]|e];
      [|cbn; congruence].
    destruct (set_my_commands bot (u "all_group_chats")) as [[]|e];
      [|cbn; congruence].
    destruct (set_my_commands bot (u "all_chat_administrators")) as [[]|e];
      [|cbn; congruence].
    intros _. repeat split.
  - intros -> Hw Hs. cbn [negb]. cbv iota.
    rewrite bind_await, Hw, trace_bind, result_bind, set_commands_cases, !Hs.
    reflexivity.
Qed.

(** X16. A stream-driving call that returns normally is simply made again:
    for any number of such passes the loop starts the stream each time,
    notifies nobody, never sleeps, and is still running. *)
Theorem returning_polling_restarts_at_once (OWNER_ID : option Z) (bot : Bot)
    (passes : list iteration) :
  Forall (fun it => polling it = Ok tt) passes ->
  polling_loop OWNER_ID bot passes
  = (repeat EvStartPolling (List.length passes), Ok RUNNING).
Proof.
  induction 1 as [|it passes Hit _ IH]; [reflexivity|].
  rewrite polling_loop_cons, loop_body_cases, Hit, IH. reflexivity.
Qed.

Lemma returning_polling_restarts_at_once_witness :
  polling_loop (Some 7) (platform (Ok 3) (Ok []))
    [returning_pass; returning_pass]
  = ([EvStartPolling; EvStartPolling], Ok RUNNING).
Proof.
  apply (returning_polling_restarts_at_once (Some 7) (platform (Ok 3) (Ok []))
           [returning_pass; returning_pass]).
  repeat constructor.
Defined.

(** X17. An exception from the stream-driving call that is neither an
    [Exception] nor the operator interrupt (a cancellation, an interpreter
    exit) is not handled by the supervisor: it leaves the loop at once, with
    no notification, no log entry and no sleep, and the rest of the script
    is never run. *)
Theorem other_base_exception_escapes (OWNER_ID : option Z) (bot : Bot)
    (it : iteration) (rest : list iteration) (class_name : pystr) :
  polling it = Raise (OtherBaseException class_name) ->
  polling_loop OWNER_ID bot (it :: rest)
  = ([EvStartPolling], Raise (OtherBaseException class_name)).
Proof.
  intros H. rewrite polling_loop_cons, loop_body_cases, H. reflexivity.
Qed.

Lemma other_base_exception_escapes_witness :
  polling_loop (Some 7) (platform (Ok 3) (Ok []))
    ({| polling := Raise (OtherBaseException (u "SystemExit"));
        failed_at := sample_timestamp; backoff := Ok tt |} :: [failed_pass])
  = ([EvStartPolling], Raise (OtherBaseException (u "SystemExit"))).
Proof.
  apply (other_base_exception_escapes (Some 7) (platform (Ok 3) (Ok []))
           {| polling := Raise (OtherBaseException (u "SystemExit"));
              failed_at := sample_timestamp; backoff := Ok tt |}
           [failed_pass] (u "SystemExit")).
  reflexivity.
Defined.

(** ** Notifier and reporter *)

(** X18. Whatever the platform does, the notifier never lets an [Exception]
    out, and it asks the platform to send at most one message: none when
    the operator identity is unset or zero, otherwise exactly one, to the
    operator identity and with the given text unchanged. *)
Theorem notify_owner_sends_once (OWNER_ID : option Z) (bot : Bot)
    (text : pystr) :
  (forall e, result (notify_owner OWNER_ID bot text) <> Raise (Exc e)) /\
  filter is_send_message (trace (notify_owner OWNER_ID bot text))
  = match OWNER_ID with
    | Some owner => if truthy owner then [EvSendMessage owner text] else []
    | None => []
    end.
Proof.
  destruct OWNER_ID as [owner|]; [|split; [discriminate | reflexivity]].
  change (truthy owner) with (negb (owner =? 0)).
  destruct (Z.eqb_spec owner 0) as [->|Hz].
  - split; [discriminate | reflexivity].
  - rewrite (notify_owner_on owner bot text Hz). cbn [negb].
    destruct (send_message bot owner text) as [[]|[e'| |c]];
      split; try discriminate; reflexivity.
Qed.

Lemma len_app (a b : pystr) : len (a ++ b) = len a + len b.
Proof. unfold len. rewrite length_app. lia. Qed.

Lemma len_join_two (a b : pystr) : len (join newline [a; b]) = len a + len b + 1.
Proof.
  cbn [join]. rewrite !len_app.
  replace (len newline) with 1 by (vm_compute; reflexivity). lia.
Qed.

Lemma len_join_three (a b c : pystr) :
  len (join newline [a; b; c]) = len a + len b + len c + 2.
Proof.
  cbn [join]. rewrite !len_app.
  replace (len newline) with 1 by (vm_compute; reflexivity). lia.
Qed.

(** X19. The report text is bounded by its inputs: beyond the timestamp,
    the class name and the message of the failure, it holds at most 1515
    characters, whatever the size of the serialized event. *)
Theorem report_length_bound (timestamp : pystr) (exc : exception)
    (update_dump : pystr) :
  len (report_of timestamp exc (preview_of update_dump))
  <= len timestamp + len (type_name exc) + len (str_exc exc) + 1515.
Proof.
  rewrite report_of_parts.
  assert (Hp : len (preview_of update_dump) <= 1501).
  { rewrite preview_of_cases, len_app.
    pose proof (len_slice_to 1500 update_dump) as Hs.
    change (Z.of_nat 1500) with 1500 in Hs.
    destruct (1500 <? len update_dump); rewrite ?ellipsis_one;
      unfold len at 2; cbn [List.length]; lia. }
  assert (Hh : len (u "⚠️ Ошибка ") = 10) by (vm_compute; reflexivity).
  assert (Hc : len (u ": ") = 2) by (vm_compute; reflexivity).
  destruct (truthy (preview_of update_dump)); cbn [app].
  - rewrite len_join_three, !len_app, Hh, Hc. lia.
  - rewrite len_join_two, !len_app, Hh, Hc. lia.
Qed.

(** X20. Cutting the event body is idempotent: a body that was already cut
    comes out unchanged when cut again. *)
Theorem preview_of_idempotent (update_dump : pystr) :
  preview_of (preview_of update_dump) = preview_of update_dump.
Proof.
  rewrite (preview_of_cases update_dump).
  destruct (Z.ltb_spec 1500 (len update_dump)) as [H|H].
  - rewrite preview_of_cases.
    assert (Hl : List.length (slice_to 1500 update_dump) = 1500%nat).
    { unfold slice_to. apply firstn_length_le. unfold len in H. lia. }
    assert (Hlen : len (slice_to 1500 update_dump ++ ellipsis) = 1501).
    { rewrite len_app, ellipsis_one. unfold len. rewrite Hl.
      cbn [List.length]. lia. }
    rewrite Hlen. change (1500 <? 1501) with true. cbv iota.
    f_equal. unfold slice_to at 1.
    rewrite firstn_app, Hl, Nat.sub_diag, firstn_O, app_nil_r.
    apply firstn_all2. lia.
  - rewrite app_nil_r. unfold preview_of.
    pose proof (len_slice_to 1500 update_dump) as Hs.
    change (Z.of_nat 1500) with 1500 in Hs.
    rewrite Z.gtb_ltb.
    assert ((1500 <? len (slice_to 1500 update_dump)) = false) as ->
      by (apply Z.ltb_ge; lia).
    reflexivity.
Qed.

(** ** What the reporter and the supervisor never do *)

Lemma update_dump_of_no_send (ev : ErrorEvent) :
  filter is_send_message (trace (update_dump_of ev)) = [].
Proof.
  unfold update_dump_of. destruct (error_update ev) as [upd|]; [|reflexivity].
  unfold try_except, bind.
  rewrite (io_eta (serialize_update upd)), serialize_update_trace.
  destruct (result (serialize_update upd)) as [raw|[e| |c]]; reflexivity.
Qed.

(** X22. For one reported failure the operator gets one message: with an
    operator identity set and the event serialization ending normally or in
    a caught failure, the reporter sends exactly one message, to the
    operator, whose text is the report built from the timestamp, the failure
    and the cut event body. With no triggering update the body is empty and
    nothing is logged about serialization. *)
Theorem handle_error_sends_one_report (owner : Z) (timestamp : pystr)
    (ev : ErrorEvent) (bot : Bot) (dump : pystr) :
  owner <> 0 ->
  result (update_dump_of ev) = Ok dump ->
  filter is_send_message (trace (handle_error (Some owner) timestamp ev bot))
    = [EvSendMessage owner
         (report_of timestamp (error_exception ev) (preview_of dump))] /\
  (error_update ev = None -> update_dump_of ev = ([], Ok [])).
Proof.
  intros Hz Hdump. split.
  - unfold handle_error. rewrite trace_bind, Hdump, filter_app.
    rewrite update_dump_of_no_send, app_nil_l, trace_bind.
    rewrite (notify_owner_on owner bot _ Hz).
    destruct (send_message bot owner _) as [[]|[e| |c]]; reflexivity.
  - intros H. unfold update_dump_of. now rewrite H.
Qed.

Lemma handle_error_sends_one_report_witness :
  filter is_send_message
    (trace (handle_error (Some 7) sample_timestamp failing_handler_event
              (platform (Ok 3) (Ok []))))
  = [EvSendMessage 7
       (report_of sample_timestamp (error_exception failing_handler_event)
          (preview_of []))].
Proof.
  apply (handle_error_sends_one_report 7 sample_timestamp
           failing_handler_event (platform (Ok 3) (Ok [])) []).
  - discriminate.
  - reflexivity.
Defined.

Section SupervisorBounds.

Variable OWNER_ID : option Z.
Variable bot : Bot.

Lemma loop_body_counts (it : iteration) :
  count is_start_polling (trace (loop_body OWNER_ID bot it)) = 1%nat /\
  (count is_sleep (trace (loop_body OWNER_ID bot it))
   <= if is_stream_failure it then 1 else 0)%nat /\
  (count is_send_message (trace (loop_body OWNER_ID bot it))
   <= if is_stream_failure it then 1 else 0)%nat.
Proof.
  rewrite loop_body_cases. unfold is_stream_failure.
  destruct (polling it) as [[]|[exc| |c]]; try (cbn; repeat split; lia).
  destruct (notify_owner_trace OWNER_ID bot
              (polling_failed_msg (failed_at it) exc))
    as (Hstart & Hsleep & Hsend).
  fold (failure_notice OWNER_ID bot it exc) in Hstart, Hsleep, Hsend.
  destruct (result (failure_notice OWNER_ID bot it exc)) as [[]|e];
    cbn [trace fst]; rewrite !count_app, Hstart, Hsleep, Hsend;
    destruct (truthy OWNER_ID); cbn; repeat split; lia.
Qed.

Lemma polling_loop_counts (script : list iteration) :
  (count is_start_polling (trace (polling_loop OWNER_ID bot script))
   <= List.length script)%nat /\
  (count is_sleep (trace (polling_loop OWNER_ID bot script))
   <= stream_failures script)%nat /\
  (count is_send_message (trace (polling_loop OWNER_ID bot script))
   <= stream_failures script)%nat.
Proof.
  induction script as [|it script (IH1 & IH2 & IH3)].
  - cbn. repeat split; lia.
  - destruct (loop_body_counts it) as (H1 & H2 & H3).
    unfold stream_failures in *. cbn [filter].
    rewrite polling_loop_cons.
    remember (trace (loop_body OWNER_ID bot it)) as body_trace.
    remember (trace (polling_loop OWNER_ID bot script)) as rest_trace.
    destruct (result (loop_body OWNER_ID bot it)) as [[|]|e];
      unfold trace at 1 2 3; cbn [fst]; rewrite ?app_nil_r, ?count_app;
      destruct (is_stream_failure it); cbn [List.length]; cbv iota in H2, H3;
      repeat split; lia.
Qed.

End SupervisorBounds.

(** X23. Whatever the platform does, the supervisor never sleeps and never
    sends a notification without a stream failure: over any script the
    number of sleeps and the number of messages sent are each at most the
    number of passes in which the stream-driving call failed with an
    [Exception], and the stream is started at most once per pass. *)
Theorem supervisor_acts_only_on_failures (OWNER_ID : option Z) (bot : Bot)
    (script : list iteration) :
  (count is_start_polling (trace (polling_loop OWNER_ID bot script))
   <= List.length script)%nat /\
  (count is_sleep (trace (polling_loop OWNER_ID bot script))
   <= stream_failures script)%nat /\
  (count is_send_message (trace (polling_loop OWNER_ID bot script))
   <= stream_failures script)%nat.
Proof. apply polling_loop_counts. Qed.

(** ** Permission labels *)

Lemma NoDup_map_filter {A B} (g : A -> B) (f : A -> bool) (l : list A) :
  NoDup (map g l) -> NoDup (map g (filter f l)).
Proof.
  induction l as [|a l IH]; cbn [map filter]; [constructor|].
  intros H. inversion H as [|? ? Hn Hl]; subst.
  destruct (f a); [|now apply IH].
  cbn [map]. constructor; [|now apply IH].
  intros Hin. apply Hn. apply in_map_iff in Hin as (x & E & Hx).
  apply filter_In in Hx as [Hx _]. apply in_map_iff. now exists x.
Qed.

Lemma distinctb_NoDup (l : list pystr) : distinctb l = true -> NoDup l.
Proof.
  induction l as [|x r IH]; cbn [distinctb]; intros Hd; constructor.
  - apply andb_true_iff in Hd as [Hx _]. apply negb_true_iff in Hx.
    intros Hin. apply key_in_In in Hin. congruence.
  - apply IH. now apply andb_true_iff in Hd as [_ Hd].
Qed.

Lemma mapping_labels_distinct : NoDup (map snd mapping).
Proof. apply distinctb_NoDup. vm_compute. reflexivity. Qed.

(** X24. The permissions line never names a label twice, and names at most
    the fourteen labels of the table. *)
Theorem granted_labels_distinct (perms : ChatPermissions) :
  NoDup (granted_labels perms) /\
  (List.length (granted_labels perms) <= 14)%nat /\
  (forall label, In label (granted_labels perms) ->
                 In label (map snd mapping)).
Proof.
  unfold granted_labels. split; [|split].
  - apply NoDup_map_filter, mapping_labels_distinct.
  - rewrite length_map.
    pose proof (filter_length_le (fun item => granted perms (fst item))
                  mapping) as H.
    change (List.length mapping) with 14%nat in H. exact H.
  - intros label Hin. apply in_map_iff in Hin as (x & E & Hx).
    apply filter_In in Hx as [Hx _]. apply in_map_iff. now exists x.
Qed.
